(** * A Hilbert-style proof engine and its Deduction Theorem transformer

    Shallow embedding of [propositions.py] (formulas, the [Proof] class and
    its step constructors) and of [deduction.py] ([use_deduction_theorem]).

    Formulas are immutable values.  The [Proof] objects, the lists they hold
    and the premise sets are mutable Python objects: they live in an explicit
    store, and every method is a computation in a state-and-exception monad
    over that store. *)

From Stdlib Require Import String Ascii ZArith List Lia Bool Permutation.
From stdpp Require Import base list strings pretty.

#[local] Arguments String.append !s1 s2 : simpl nomatch.

(** ** Formulas ([PrimitiveProposition], [Proposition])

    An atom has a name; a compound has a left and a right formula. *)

Inductive formula : Type :=
| PrimitiveProposition (name : string)
| Proposition (left right : formula).

(** ** What the Python runtime provides

    [hash] on [str] is the interpreter's (per-process keyed) string hash; the
    order in which a freshly built [set] is iterated is fixed by the
    interpreter as well.  Neither is code of this repository: both are taken
    as parameters of the development.  Nothing is assumed of the hash: two
    different strings may have the same hash.  (Its values are machine
    integers in the interpreter; the model does not bound them.) *)

Class PyRuntime : Type := {
  (** [hash(s)] for a [str] *)
  str_hash : string -> Z;
  (** the iteration order of a newly built set, given its elements in
      insertion order *)
  set_order : list formula -> list formula;
  set_order_perm : forall l, Permutation (set_order l) l
}.

(** The [__hash__] protocol: any Python object that can be hashed (under
    a given runtime). *)
Class PyHashable {RT : PyRuntime} (A : Type) : Type := py_hash : A -> Z.

(** ** Names and operators

    [self.name]: the name of an atom, [f"({self.left} => {self.right})"] for
    a compound; [__str__] and [__repr__] return it. *)
Fixpoint name (f : formula) : string :=
  match f with
  | PrimitiveProposition n => n
  | Proposition l r => "(" +:+ name l +:+ " => " +:+ name r +:+ ")"
  end.

(** [__gt__]: [(p > q)] is [Proposition(p, q)]. *)
Definition __gt__ (self other : formula) : formula := Proposition self other.

Declare Scope formula_scope.
Delimit Scope formula_scope with F.
Bind Scope formula_scope with formula.
Notation "a '-->' b" := (__gt__ a b) (at level 55, right associativity) : formula_scope.
Open Scope formula_scope.

(** The module-level constant [false] (renamed: [false] is a boolean here). *)
Definition false_ : formula := PrimitiveProposition "⊥".

(** [__invert__], [__and__], [__or__] *)
Definition __invert__ (self : formula) : formula := self --> false_.
Definition __and__ (self other : formula) : formula :=
  __invert__ (self --> __invert__ other).
Definition __or__ (self other : formula) : formula :=
  __invert__ self --> other.

(** The module-level constants [true], [p], [q], [r]. *)
Definition true_ : formula := __invert__ false_.
Definition p : formula := PrimitiveProposition "p".
Definition q : formula := PrimitiveProposition "q".
Definition r : formula := PrimitiveProposition "r".

Section Equality.
Context {RT : PyRuntime}.

#[global] Instance str_hashable : PyHashable string := str_hash.

(** [__hash__]: [hash(self.name)] *)
Definition __hash__ (self : formula) : Z := str_hash (name self).

#[global] Instance formula_hashable : PyHashable formula := __hash__.

(** [__eq__]: [self.__hash__() == other.__hash__()], for any [other]
    that has a [__hash__]. *)
Definition __eq__ {A : Type} {HA : PyHashable (RT:=RT) A}
    (self : formula) (other : A) : bool :=
  (__hash__ self =? py_hash other)%Z.

(** [x in l] for a list [l]: some item compares equal to [x]. *)
Definition list_contains (x : formula) (l : list formula) : bool :=
  existsb (fun item => __eq__ item x) l.

(** [l.index(x)]: the position of the first item equal to [x]. *)
Fixpoint list_index (x : formula) (l : list formula) : option nat :=
  match l with
  | [] => None
  | item :: l' =>
      if __eq__ item x then Some 0
      else option_map S (list_index x l')
  end.

(** A set is kept as the list of its elements in iteration order.
    [x in s]: a stored element has the hash of [x] and compares equal. *)
Definition set_contains (x : formula) (s : list formula) : bool :=
  existsb (fun e => __eq__ e x) s.

(** [s - t]: a new set with the elements of [s] that are not in [t]. *)
Definition set_difference (s t : list formula) : list formula :=
  set_order (List.filter (fun e => negb (set_contains e t)) s).

(** A set display [{x1, ..., xn}]: elements are added one by one, an
    element equal to one already present is dropped. *)
Definition set_add (s : list formula) (x : formula) : list formula :=
  if set_contains x s then s else s ++ [x].
Definition set_display (xs : list formula) : list formula :=
  set_order (fold_left set_add xs []).
End Equality.

(** ** The object store

    The mutable objects of the program: premise sets, the [lines] lists
    (formulas) and the [applications] lists (strings).  A reference is an
    index into the store; objects are never freed. *)

Inductive obj : Type :=
| PySet (elems : list formula)
| PyList (items : list formula)
| PyStrList (strs : list string).

Abbreviation ref := nat (only parsing).
Abbreviation store := (list obj) (only parsing).

(** Exceptions.  Every error the code raises itself is a [ValueError]
    carrying a message; [IndexError] is raised by [l[-1]] on an empty list;
    [InvalidObject] stands for the interpreter's own errors on a reference
    that does not hold an object of the expected kind. *)
Inductive exn : Type :=
| ValueError (msg : string)
| IndexError
| InvalidObject.

Inductive outcome (A : Type) : Type :=
| Return (a : A)
| Raise (e : exn).
Arguments Return {A} a.
Arguments Raise {A} e.

(** Computations: a store in, an outcome and a store out. *)
Definition M (A : Type) : Type := store -> outcome A * store.

Definition ret {A : Type} (a : A) : M A := fun h => (Return a, h).
Definition raise {A : Type} (e : exn) : M A := fun h => (Raise e, h).
Definition bind {A B : Type} (m : M A) (k : A -> M B) : M B :=
  fun h =>
    match m h with
    | (Return a, h') => k a h'
    | (Raise e, h') => (Raise e, h')
    end.

Notation "x <- m ;; k" := (bind m (fun x => k))
  (at level 100, m at next level, right associativity).
Notation "m ;;; k" := (bind m (fun _ => k))
  (at level 100, right associativity).

(** A new object gets the next free reference. *)
Definition alloc (o : obj) : M ref :=
  fun h => (Return (length h), h ++ [o]).

Definition get_set (l : ref) : M (list formula) :=
  fun h => match h !! l with
           | Some (PySet s) => (Return s, h)
           | _ => (Raise InvalidObject, h)
           end.

Definition get_list (l : ref) : M (list formula) :=
  fun h => match h !! l with
           | Some (PyList xs) => (Return xs, h)
           | _ => (Raise InvalidObject, h)
           end.

Definition get_strs (l : ref) : M (list string) :=
  fun h => match h !! l with
           | Some (PyStrList xs) => (Return xs, h)
           | _ => (Raise InvalidObject, h)
           end.

(** [l.append(x)] on a list of formulas, and on a list of strings. *)
Definition list_append (l : ref) (x : formula) : M unit :=
  fun h => match h !! l with
           | Some (PyList xs) => (Return tt, <[l := PyList (xs ++ [x])]> h)
           | _ => (Raise InvalidObject, h)
           end.

Definition strs_append (l : ref) (x : string) : M unit :=
  fun h => match h !! l with
           | Some (PyStrList xs) => (Return tt, <[l := PyStrList (xs ++ [x])]> h)
           | _ => (Raise InvalidObject, h)
           end.

(** [for x in xs: body(x)], stopping at the first exception. *)
Fixpoint for_each {A : Type} (xs : list A) (body : A -> M unit) : M unit :=
  match xs with
  | [] => ret tt
  | x :: xs' => body x ;;; for_each xs' body
  end.

(** ** The [Proof] class *)

(** A [Proof] object: its three attributes are references, assigned once
    by the constructor. *)
Record proof_obj : Type := {
  premises : ref;
  lines : ref;
  applications : ref
}.

(** The error messages of [modus_ponens] and [use_deduction_theorem]. *)
Definition UnprovenAntecedent (a : formula) : exn :=
  ValueError ("Antecedent " +:+ name a +:+ " has not been proven: unable to apply modus ponens").
Definition UnprovenImplication (ab : formula) : exn :=
  ValueError ("Implication " +:+ name ab +:+ " has not been proven: unable to apply modus ponens").
Definition MissingPremise (premise : formula) : exn :=
  ValueError ("`" +:+ name premise +:+ "` is not a premise of the proof").
Definition MalformedInputProof (line : formula) : exn :=
  ValueError ("Unable to find the antecedent of " +:+ name line).
(** [list.index] on an absent item *)
Definition NotInList (x : formula) : exn :=
  ValueError (name x +:+ " is not in list").

Section ProofClass.
Context {RT : PyRuntime}.

(** [Proof.__init__]: [self.premises] is the caller's set itself,
    [self.lines] and [self.applications] are new lists. *)
Definition Proof__init__ (premises : ref) : M proof_obj :=
  s <- get_set premises ;;
  ls <- alloc (PyList s) ;;
  s' <- get_set premises ;;
  apps <- alloc (PyStrList (map (fun _ => "(premise)") s')) ;;
  ret {| premises := premises; lines := ls; applications := apps |}.

Definition axiom_1 (self : proof_obj) (p q : formula) : M unit :=
  list_append (lines self) (p --> (q --> p)) ;;;
  strs_append (applications self) "(A1)".

Definition axiom_2 (self : proof_obj) (p q r : formula) : M unit :=
  list_append (lines self) ((p --> (q --> r)) --> ((p --> q) --> (p --> r))) ;;;
  strs_append (applications self) "(A2)".

Definition axiom_3 (self : proof_obj) (p : formula) : M unit :=
  list_append (lines self) (__invert__ (__invert__ p) --> p) ;;;
  strs_append (applications self) "(A3)".

(** [self.lines.index(x)] *)
Definition index_in (l : ref) (x : formula) : M nat :=
  xs <- get_list l ;;
  match list_index x xs with
  | Some i => ret i
  | None => raise (NotInList x)
  end.

Definition modus_ponens (self : proof_obj) (p q : formula) : M unit :=
  ls <- get_list (lines self) ;;
  if negb (list_contains p ls) then raise (UnprovenAntecedent p) else
  ls' <- get_list (lines self) ;;
  if negb (list_contains (p --> q) ls') then raise (UnprovenImplication (p --> q)) else
  list_append (lines self) q ;;;
  i <- index_in (lines self) p ;;
  j <- index_in (lines self) (p --> q) ;;
  strs_append (applications self)
    ("(MP " +:+ pretty (i + 1)%nat +:+ ", " +:+ pretty (j + 1)%nat +:+ ")").

(** [conclude]: [self.lines[-1]]; an [IndexError] on an empty list. *)
Definition conclude (self : proof_obj) : M formula :=
  ls <- get_list (lines self) ;;
  match last ls with
  | Some x => ret x
  | None => raise IndexError
  end.
End ProofClass.

(** ** [Proof.summary]

    [summary] prints: its computations run over the store and the lines
    printed so far. *)

Definition IO (A : Type) : Type :=
  store * list string -> outcome A * (store * list string).

Definition io_ret {A : Type} (a : A) : IO A := fun w => (Return a, w).

Definition io_bind {A B : Type} (m : IO A) (k : A -> IO B) : IO B :=
  fun w =>
    match m w with
    | (Return a, w') => k a w'
    | (Raise e, w') => (Raise e, w')
    end.

(** A computation over the store, which prints nothing. *)
Definition lift {A : Type} (m : M A) : IO A :=
  fun w => let '(r, h') := m (fst w) in (r, (h', snd w)).

(** [print(s)] *)
Definition print (s : string) : IO unit :=
  fun w => (Return tt, (fst w, snd w ++ [s])).

Notation "x <~ m ;; k" := (io_bind m (fun x => k))
  (at level 100, m at next level, right associativity).
Notation "m ;;~ k" := (io_bind m (fun _ => k))
  (at level 100, right associativity).

Fixpoint io_for_each {A : Type} (xs : list A) (body : A -> IO unit) : IO unit :=
  match xs with
  | [] => io_ret tt
  | x :: xs' => body x ;;~ io_for_each xs' body
  end.

(** [len(s)] counts code points: the bytes of the UTF-8 text that are not
    continuation bytes. *)
Definition continuation (c : ascii) : bool :=
  match c with
  | Ascii _ _ _ _ _ _ b6 b7 => b7 && negb b6
  end.

Fixpoint py_len (s : string) : nat :=
  match s with
  | EmptyString => 0
  | String c s' => (if continuation c then 0 else 1) + py_len s'
  end.

Fixpoint spaces (n : nat) : string :=
  match n with
  | 0 => ""
  | S n' => String " " (spaces n')
  end.

(** The format specifications [:<w] and [:>w]. *)
Definition ljust (w : nat) (s : string) : string := s +:+ spaces (w - py_len s).
Definition rjust (w : nat) (s : string) : string := spaces (w - py_len s) +:+ s.

(** [f"{i+1:>2}. {application:<12} {str(line):<60}"] *)
Definition summary_row (i : nat) (line : formula) (application : string) : string :=
  rjust 2 (pretty (i + 1)%nat) +:+ ". " +:+ ljust 12 application +:+ " "
  +:+ ljust 60 (name line).

(** [str] of a set: the [repr] of its elements, in iteration order. *)
Definition set_repr (s : list formula) : string :=
  "{" +:+ String.concat ", " (map name s) +:+ "}".

(** [enumerate] *)
Definition enumerate {A : Type} (xs : list A) : list (nat * A) :=
  combine (seq 0 (length xs)) xs.

(** The last line printed:
    [f"Proved {self.conclude()} from premises {self.premises or '{}'} in {len(self.lines)} lines"] *)
Definition summary_last (c : formula) (s : list formula) (n : nat) : string :=
  "Proved " +:+ name c +:+ " from premises "
  +:+ (match s with [] => "{}" | _ => set_repr s end)
  +:+ " in " +:+ pretty n +:+ " lines".

Definition summary (self : proof_obj) : IO unit :=
  ls <~ lift (get_list (lines self)) ;;
  apps <~ lift (get_strs (applications self)) ;;
  io_for_each (enumerate (combine ls apps))
    (fun '(i, (line, application)) => print (summary_row i line application)) ;;~
  c <~ lift (conclude self) ;;
  s <~ lift (get_set (premises self)) ;;
  ls' <~ lift (get_list (lines self)) ;;
  print (summary_last c s (length ls')).

(** ** The Deduction Theorem transformer ([deduction.py]) *)

Section Deduction.
Context {RT : PyRuntime}.

(** The scan of case 4:
    [for tj, tk in product(proof.lines, repeat=2): if tk == (tj > line): break],
    [None] when the loop runs to its [else]. *)
Definition find_pair (ls : list formula) (line : formula) : option (formula * formula) :=
  find (fun '(tj, tk) => __eq__ tk (tj --> line)) (list_prod ls ls).

(** The body of the loop over [zip(proof.lines, proof.applications)]. *)
Definition deduce_line (proof new_proof : proof_obj) (premise : formula)
    (entry : formula * string) : M unit :=
  let '(line, application) := entry in
  let p := premise in
  if __eq__ line premise then
    axiom_1 new_proof p (p --> p) ;;;
    axiom_2 new_proof p (p --> p) p ;;;
    modus_ponens new_proof (p --> ((p --> p) --> p)) ((p --> (p --> p)) --> (p --> p)) ;;;
    axiom_1 new_proof p p ;;;
    modus_ponens new_proof (p --> (p --> p)) (p --> p)
  else
    s <- get_set (premises proof) ;;
    if set_contains line s then
      axiom_1 new_proof line p ;;;
      modus_ponens new_proof line (p --> line)
    else if String.prefix "(A" application then
      list_append (lines new_proof) line ;;;
      strs_append (applications new_proof) application ;;;
      axiom_1 new_proof line p ;;;
      modus_ponens new_proof line (p --> line)
    else
      ls <- get_list (lines proof) ;;
      match find_pair ls line with
      | None => raise (MalformedInputProof line)
      | Some (tj, tk) =>
          axiom_2 new_proof p tj line ;;;
          modus_ponens new_proof (p --> tk) ((p --> tj) --> (p --> line)) ;;;
          modus_ponens new_proof (p --> tj) (p --> line)
      end.

(** The lists zipped by the loop are read when the loop starts: the loop
    body appends to the lists of [new_proof] only, which are new objects
    (see [use_deduction_theorem_grows] below). *)
Definition use_deduction_theorem (proof : proof_obj) (premise : formula) : M proof_obj :=
  s <- get_set (premises proof) ;;
  if negb (set_contains premise s) then raise (MissingPremise premise) else
  s' <- get_set (premises proof) ;;
  new_premises <- alloc (PySet (set_difference s' (set_display [premise]))) ;;
  new_proof <- Proof__init__ new_premises ;;
  ls <- get_list (lines proof) ;;
  apps <- get_strs (applications proof) ;;
  for_each (combine ls apps) (deduce_line proof new_proof premise) ;;;
  ret new_proof.
End Deduction.

(** ** A collision-free runtime, to run examples

    [code s] reads the bytes of [s] as the digits of a number in base 256
    above a leading 1, so distinct strings get distinct hashes; sets are
    iterated in insertion order. *)
Fixpoint code (s : string) : Z :=
  match s with
  | EmptyString => 1
  | String c s' => Z.of_nat (nat_of_ascii c) + 256 * code s'
  end.

Definition ideal : PyRuntime :=
  {| str_hash := code;
     set_order := id;
     set_order_perm := fun l => Permutation_refl l |}.

(** The script at the end of [deduction.py], on a store that holds the
    premise set [{p, q, p > (q > false)}]. *)
Definition main_store : store :=
  [PySet (set_display (RT:=ideal) [p; q; p --> (q --> false_)])].

Definition main : M (proof_obj * proof_obj) :=
  pf <- Proof__init__ 0 ;;
  modus_ponens (RT:=ideal) pf p (q --> false_) ;;;
  modus_ponens (RT:=ideal) pf q false_ ;;;
  new <- use_deduction_theorem (RT:=ideal) pf (p --> (q --> false_)) ;;
  ret (pf, new).

(** ** Vocabulary of the statements *)

(** Atom names that cannot be confused with the rendering of a compound:
    no parenthesis and no space. *)
Definition delimiter (c : ascii) : bool :=
  ((c =? "(") || (c =? ")") || (c =? " "))%char.

Fixpoint no_delimiter (s : string) : bool :=
  match s with
  | EmptyString => true
  | String c s' => negb (delimiter c) && no_delimiter s'
  end.

Fixpoint plain (f : formula) : bool :=
  match f with
  | PrimitiveProposition n => no_delimiter n
  | Proposition l r => plain l && plain r
  end.

(** The runtime's hash tells the two strings apart unless they are the
    same string. *)
Definition no_collision {RT : PyRuntime} (s t : string) : Prop :=
  str_hash s = str_hash t -> s = t.

(** A string that is empty or starts with a space or a closing parenthesis:
    what can follow a formula inside a rendering. *)
Definition closes (s : string) : Prop :=
  s = EmptyString \/ exists s', s = String " " s' \/ s = String ")" s'.

(** In store [h], the attributes of [pf] refer to the premise set [P], the
    lines [L] and the applications [A]. *)
Definition holds (h : store) (pf : proof_obj)
    (P L : list formula) (A : list string) : Prop :=
  h !! premises pf = Some (PySet P) /\
  h !! lines pf = Some (PyList L) /\
  h !! applications pf = Some (PyStrList A).

(** The store after line [x] with application [s] is appended to [pf]. *)
Definition add_row (pf : proof_obj) (L : list formula) (A : list string)
    (x : formula) (s : string) (h : store) : store :=
  <[applications pf := PyStrList (A ++ [s])]> (<[lines pf := PyList (L ++ [x])]> h).

(** From [h] to [h'] the proof object [pf] has only been appended to, its
    two lists by as many items, and no other object has changed. *)
Definition grows (pf : proof_obj) (h h' : store) : Prop :=
  length h' = length h /\
  (forall l, l <> lines pf -> l <> applications pf -> h' !! l = h !! l) /\
  (forall P L A, holds h pf P L A ->
     exists Lx Ax, length Lx = length Ax /\ holds h' pf P (L ++ Lx) (A ++ Ax)).

(** Whatever its outcome, [m] only appends to [pf]; and an exception it
    raises satisfies [Q]. *)
Definition extends {X : Type} (Q : exn -> Prop) (pf : proof_obj) (m : M X) : Prop :=
  forall h r h',
    (exists P L A, holds h pf P L A) -> m h = (r, h') ->
    grows pf h h' /\ forall e, r = Raise e -> Q e.

Definition only_appends {X : Type} (pf : proof_obj) (m : M X) : Prop :=
  forall h r h',
    (exists P L A, holds h pf P L A) -> m h = (r, h') -> grows pf h h'.

(** [i] is the position of the first item of [L] equal to [x]. *)
Definition first_occurrence {RT : PyRuntime} (x : formula) (L : list formula) (i : nat) : Prop :=
  (exists y, L !! i = Some y /\ __eq__ y x = true) /\
  (forall k y, k < i -> L !! k = Some y -> __eq__ y x = false).

(** [i] is the position of the first item of [L] that is the formula [x]
    itself. *)
Definition first_position (x : formula) (L : list formula) (i : nat) : Prop :=
  L !! i = Some x /\ forall k, k < i -> L !! k <> Some x.

(** [x] and the items of [L] have plain atom names, and the hash tells the
    name of [x] from the name of every item of [L]. *)
Definition told_apart {RT : PyRuntime} (x : formula) (L : list formula) : Prop :=
  plain x = true /\
  forall y, In y L -> plain y = true /\ no_collision (name y) (name x).

(** The application string of a modus ponens step. *)
Definition MP_application (i j : nat) : string :=
  "(MP " +:+ pretty (i + 1)%nat +:+ ", " +:+ pretty (j + 1)%nat +:+ ")".

(** The proof object the transformer creates in store [h], and the store
    once it is created: the new premise set, then the two lists. *)
Definition new_proof_of (h : store) : proof_obj :=
  {| premises := length h; lines := S (length h); applications := S (S (length h)) |}.

Definition new_store_of {RT : PyRuntime} (h : store) (P : list formula)
    (premise : formula) : store :=
  let Pn := set_difference P (set_display [premise]) in
  h ++ [PySet Pn; PyList Pn; PyStrList (map (fun _ => "(premise)") Pn)].

(** Exceptions other than the one of the case-4 scan. *)
Definition not_malformed (e : exn) : Prop :=
  forall line, e <> MalformedInputProof line.

(** A proof object obtained from [Proof(premises)] by the step
    constructors, whatever their outcome; [U] holds of the premises, of the
    axiom instances and of the two formulas given to [modus_ponens]. *)
Inductive built {RT : PyRuntime} (U : formula -> Prop) : store -> proof_obj -> Prop :=
| built_init h s pf h' :
    Proof__init__ s h = (Return pf, h') ->
    (forall P x, h !! s = Some (PySet P) -> In x P -> U x) ->
    built U h' pf
| built_axiom_1 h pf a b r h' :
    built U h pf -> U (a --> (b --> a)) ->
    axiom_1 pf a b h = (r, h') -> built U h' pf
| built_axiom_2 h pf a b c r h' :
    built U h pf -> U ((a --> (b --> c)) --> ((a --> b) --> (a --> c))) ->
    axiom_2 pf a b c h = (r, h') -> built U h' pf
| built_axiom_3 h pf a r h' :
    built U h pf -> U (__invert__ (__invert__ a) --> a) ->
    axiom_3 pf a h = (r, h') -> built U h' pf
| built_modus_ponens h pf a b r h' :
    built U h pf -> U a -> U b ->
    modus_ponens pf a b h = (r, h') -> built U h' pf.

(** An entry of a proof that the transformer can process without reaching
    the [else] of its scan: a premise, an axiom, or a line for which the
    scan finds a pair. *)
Definition justified {RT : PyRuntime} (P L : list formula)
    (entry : formula * string) : Prop :=
  set_contains (fst entry) P = true \/
  String.prefix "(A" (snd entry) = true \/
  find_pair L (fst entry) <> None.

(** The runtime's hash has no collision among the names of the formulas
    of [U]. *)
Definition collision_free {RT : PyRuntime} (U : formula -> Prop) : Prop :=
  forall a b, U a -> U b -> no_collision (name a) (name b).

(** What holds of every built proof, when the hash has no collision on
    [U]. *)
Definition well_justified {RT : PyRuntime} (U : formula -> Prop) (h : store) (pf : proof_obj) : Prop :=
  exists P L A,
    holds h pf P L A /\ length L = length A /\
    (forall x, In x L -> U x) /\
    forall entry, In entry (combine L A) -> justified P L entry.

(** [app] is the application of an axiom schema of which [line] is an
    instance. *)
Definition axiom_row (line : formula) (app : string) : Prop :=
  (app = "(A1)" /\ exists a b, line = a --> (b --> a)) \/
  (app = "(A2)" /\
   exists a b c, line = (a --> (b --> c)) --> ((a --> b) --> (a --> c))) \/
  (app = "(A3)" /\ exists a, line = __invert__ (__invert__ a) --> a).

(** Row [k] of a proof with premises [P] and lines [L] is explained by
    its application: a premise; an instance of the schema named; or, for
    ["(MP i+1, j+1)"], the first line equal to some [a] is line [i], the first
    line equal to [(a > line)] is line [j], and both come before row [k]. *)
Definition explained {RT : PyRuntime} (P L : list formula) (k : nat)
    (line : formula) (app : string) : Prop :=
  (app = "(premise)" /\ set_contains line P = true) \/
  axiom_row line app \/
  (exists a i j,
     app = MP_application i j /\ i < k /\ j < k /\
     first_occurrence a L i /\ first_occurrence (a --> line) L j).

Definition explains {RT : PyRuntime} (P L : list formula) (A : list string) : Prop :=
  length L = length A /\
  forall k line app,
    L !! k = Some line -> A !! k = Some app -> explained P L k line app.

(** [m] keeps the rows of [pf] explained, whatever its outcome. *)
Definition keeps {RT : PyRuntime} {X : Type} (pf : proof_obj) (m : M X) : Prop :=
  forall h r h' P L A,
    holds h pf P L A -> explains P L A -> m h = (r, h') ->
    exists L' A', holds h' pf P L' A' /\ explains P L' A'.

(** The line the transformer derives for the input line [x]: [(p > p)] when
    [x == p] (case 1), [(p > x)] otherwise. *)
Definition implied {RT : PyRuntime} (premise x : formula) : formula :=
  premise --> (if __eq__ x premise then premise else x).

(** When [m] returns, the last line of [pf] is [b]. *)
Definition returns_last {X : Type} (pf : proof_obj) (b : formula) (m : M X) : Prop :=
  forall h a h',
    (exists P L A, holds h pf P L A) -> m h = (Return a, h') ->
    exists P L A, holds h' pf P (L ++ [b]) A.

(** Run from [h], [m] returns, having appended to the lines [NL] of
    [new_proof] some lines of which [target] is the last. *)
Definition reaches (new_proof : proof_obj) (Pn NL : list formula)
    (target : formula) (m : M unit) (h : store) : Prop :=
  exists h' NLx NA',
    m h = (Return tt, h') /\
    holds h' new_proof Pn (NL ++ NLx) NA' /\
    last NLx = Some target.

(** The entry at a position with earlier lines [L1] can be processed: it
    falls in one of the first three cases, or the pair found by the scan is
    made of earlier lines, and the equalities by hash that case 4 relies on
    are equalities of names. *)
Definition scan_ready {RT : PyRuntime} (P L L1 : list formula)
    (premise : formula) (entry : formula * string) : Prop :=
  __eq__ (fst entry) premise = true \/
  set_contains (fst entry) P = true \/
  String.prefix "(A" (snd entry) = true \/
  exists tj tk,
    find_pair L (fst entry) = Some (tj, tk) /\ In tj L1 /\ In tk L1 /\
    name tk = name (tj --> fst entry) /\
    (__eq__ tj premise = true -> name tj = name premise) /\
    (__eq__ tk premise = true -> name tk = name premise).

Definition orderly {RT : PyRuntime} (P L : list formula) (A : list string)
    (premise : formula) : Prop :=
  forall k line app,
    L !! k = Some line -> A !! k = Some app ->
    scan_ready P L (take k L) premise (line, app).

(** No two elements of the set are equal: what a Python set holds. *)
Fixpoint distinct {RT : PyRuntime} (s : list formula) : Prop :=
  match s with
  | [] => True
  | x :: s' => set_contains x s' = false /\ distinct s'
  end.

(** Whatever its outcome, [m] appends at most [hi] rows to [pf]; when it
    returns, at least [lo]. *)
(** The four errors the code raises itself. *)
Definition documented_error (e : exn) : Prop :=
  (exists x, e = MissingPremise x) \/
  (exists x, e = UnprovenAntecedent x) \/
  (exists x, e = UnprovenImplication x) \/
  (exists x, e = MalformedInputProof x).

(** The scan of case 4 finds, for every line that reaches it, a pair among
    the lines before that line. *)
Definition scan_in_order {RT : PyRuntime} (P L : list formula) (A : list string)
    (premise : formula) : Prop :=
  forall k line app,
    L !! k = Some line -> A !! k = Some app ->
    __eq__ line premise = true \/
    set_contains line P = true \/
    String.prefix "(A" app = true \/
    exists tj tk,
      find_pair L line = Some (tj, tk) /\ In tj (take k L) /\ In tk (take k L).

Definition appends_between {X : Type} (lo hi : nat) (pf : proof_obj) (m : M X) : Prop :=
  forall h r h' P L A,
    holds h pf P L A -> m h = (r, h') ->
    exists Lx Ax,
      holds h' pf P (L ++ Lx) (A ++ Ax) /\ length Lx = length Ax /\
      length Lx <= hi /\ (forall a, r = Return a -> lo <= length Lx).

(** ** Proof objects to run the statements on *)

(** A store with one proof object whose lines are [p] and [p > q]. *)
Definition small_store : store :=
  [PySet [p; p --> q]; PyList [p; p --> q]; PyStrList ["(premise)"; "(premise)"]].
Definition small_proof : proof_obj :=
  {| premises := 0; lines := 1; applications := 2 |}.

(** A store with one proof object whose lines are [p] and the atom named
    ["(p => ⊥)"], which is not the implication [(p > false)]. *)
Definition lookalike : formula := PrimitiveProposition "(p => ⊥)".
Definition lookalike_store : store :=
  [PySet [p; lookalike]; PyList [p; lookalike]; PyStrList ["(premise)"; "(premise)"]].

(** A runtime whose hash collides once: the strings ["x"] and ["p"] have the
    same hash; any two other strings have different hashes. *)
Definition colliding : PyRuntime :=
  {| str_hash := fun s => if String.eqb s "x" then code "p" else code s;
     set_order := id;
     set_order_perm := fun l => Permutation_refl l |}.

(** Under that runtime: [Proof({p, x > q})], then [modus_ponens(x, q)]. *)
Definition collision_x : formula := PrimitiveProposition "x".

Definition collision_store : store :=
  [PySet (set_display (RT:=colliding) [p; collision_x --> q])].

Definition collision_script : M proof_obj :=
  proof <- Proof__init__ 0 ;;
  modus_ponens (RT:=colliding) proof collision_x q ;;;
  ret proof.

(** A hand-assembled proof object: its second line claims a modus ponens
    that no pair of lines supports. *)
Definition forged_store : store :=
  [PySet [p]; PyList [p; q]; PyStrList ["(premise)"; "(MP 1, 1)"]].

(** From the premise [p]: two instances of axiom 1 give [a] and [a > t],
    modus ponens gives [t]; then [t > (p > t)] by axiom 1 and [(p > t)] by
    modus ponens. *)
Definition detour_a : formula := q --> (q --> q).
Definition detour_t : formula := r --> detour_a.

Definition detour_store : store := [PySet [p]].

Definition detour : M proof_obj :=
  proof <- Proof__init__ 0 ;;
  axiom_1 proof q q ;;;
  axiom_1 proof detour_a r ;;;
  modus_ponens (RT:=ideal) proof detour_a detour_t ;;;
  axiom_1 proof detour_t p ;;;
  modus_ponens (RT:=ideal) proof detour_t (p --> detour_t) ;;;
  ret proof.

(** The proof of the script of [deduction.py], as a proof object. *)
Definition script_lines : list formula :=
  [p; q; p --> (q --> false_); q --> false_; false_].
Definition script_applications : list string :=
  ["(premise)"; "(premise)"; "(premise)"; "(MP 1, 3)"; "(MP 2, 4)"].
Definition script_store : store :=
  [PySet [p; q; p --> (q --> false_)]; PyList script_lines;
   PyStrList script_applications].

(** ** Formulas: equality *)

Lemma append_assoc (s t u : string) : (s +:+ t) +:+ u = s +:+ (t +:+ u).
Proof. induction s as [|c s IH]; simpl; [reflexivity | now rewrite IH]. Qed.

Lemma code_pos (s : string) : (1 <= code s)%Z.
Proof.
  induction s as [|c s IH]; simpl; [lia|].
  pose proof (nat_ascii_bounded c). lia.
Qed.

Lemma code_inj (s t : string) : code s = code t -> s = t.
Proof.
  revert t. induction s as [|c s IH]; intros [|d t]; simpl; intros H.
  - reflexivity.
  - pose proof (code_pos t). pose proof (nat_ascii_bounded d). lia.
  - pose proof (code_pos s). pose proof (nat_ascii_bounded c). lia.
  - pose proof (nat_ascii_bounded c) as Hc. pose proof (nat_ascii_bounded d) as Hd.
    assert (nat_of_ascii c = nat_of_ascii d /\ code s = code t) as [Hcd Hst] by lia.
    f_equal; [|now apply IH].
    rewrite <- (ascii_nat_embedding c), <- (ascii_nat_embedding d).
    now rewrite Hcd.
Qed.

Section FormulaFacts.
Context {RT : PyRuntime}.

Lemma eq_formula_iff (a b : formula) :
  __eq__ a b = true <-> str_hash (name a) = str_hash (name b).
Proof. unfold __eq__, py_hash, formula_hashable, __hash__. apply Z.eqb_eq. Qed.

Lemma eq_formula_refl (a : formula) : __eq__ a a = true.
Proof. now apply eq_formula_iff. Qed.

Lemma eq_formula_sym (a b : formula) : __eq__ a b = __eq__ b a.
Proof. unfold __eq__, py_hash, formula_hashable. apply Z.eqb_sym. Qed.

Lemma eq_formula_trans (a b c : formula) :
  __eq__ a b = true -> __eq__ b c = true -> __eq__ a c = true.
Proof. rewrite !eq_formula_iff. congruence. Qed.

Lemma eq_formula_name (a b : formula) : name a = name b -> __eq__ a b = true.
Proof. intros H. apply eq_formula_iff. now rewrite H. Qed.
End FormulaFacts.

Lemma atom_prefix_free (n m s1 s2 : string) :
  no_delimiter n = true -> no_delimiter m = true ->
  closes s1 -> closes s2 ->
  n +:+ s1 = m +:+ s2 -> n = m /\ s1 = s2.
Proof.
  revert m. induction n as [|c n IH]; intros [|d m]; simpl; intros Hn Hm C1 C2 E.
  - now split.
  - subst s1. apply andb_true_iff in Hm as [Hd _].
    destruct C1 as [C1 | [s' [C1 | C1]]]; inversion C1; subst d; discriminate.
  - subst s2. apply andb_true_iff in Hn as [Hc _].
    destruct C2 as [C2 | [s' [C2 | C2]]]; inversion C2; subst c; discriminate.
  - apply andb_true_iff in Hn as [_ Hn]. apply andb_true_iff in Hm as [_ Hm].
    inversion E; subst d.
    destruct (IH m Hn Hm C1 C2) as [-> ->]; [assumption | now split].
Qed.

Lemma atom_not_compound (n s1 t : string) :
  no_delimiter n = true -> closes s1 -> n +:+ s1 <> String "(" t.
Proof.
  intros Hn C1 E. destruct n as [|c n]; simpl in *.
  - subst s1. destruct C1 as [C1 | [s' [C1 | C1]]]; inversion C1.
  - inversion E; subst c. discriminate.
Qed.

Lemma name_prefix_free (a : formula) :
  plain a = true ->
  forall (b : formula) (s1 s2 : string),
    plain b = true -> closes s1 -> closes s2 ->
    name a +:+ s1 = name b +:+ s2 -> a = b /\ s1 = s2.
Proof.
  induction a as [n | l IHl r0 IHr]; intros Ha [m | l' r'] s1 s2 Hb C1 C2 E; simpl in *.
  - destruct (atom_prefix_free n m s1 s2) as [-> ->]; auto.
  - exfalso. now apply (atom_not_compound n s1 _ Ha C1 E).
  - exfalso. symmetry in E. now apply (atom_not_compound m s2 _ Hb C2 E).
  - apply andb_true_iff in Ha as [Hl Hr]. apply andb_true_iff in Hb as [Hl' Hr'].
    inversion E as [E']. clear E.
    rewrite !append_assoc in E'.
    apply IHl in E' as [-> E']; auto;
      [| right; eexists; left; reflexivity | right; eexists; left; reflexivity].
    simpl in E'. inversion E' as [E'']. clear E'.
    rewrite !append_assoc in E''.
    apply IHr in E'' as [-> E'']; auto;
      [| right; eexists; right; reflexivity | right; eexists; right; reflexivity].
    simpl in E''. inversion E''. now split.
Qed.

Lemma append_empty (s : string) : s +:+ "" = s.
Proof. induction s as [|c s IH]; simpl; [reflexivity | now rewrite IH]. Qed.

Lemma name_inj (a b : formula) :
  plain a = true -> plain b = true -> name a = name b -> a = b.
Proof.
  intros Ha Hb E.
  apply (name_prefix_free a Ha b "" "" Hb); [now left | now left |].
  now rewrite !append_empty.
Qed.

(** Equality under a runtime without collisions is equality of names. *)
Lemma eq_formula_no_collision {RT : PyRuntime} (a b : formula) :
  no_collision (name a) (name b) ->
  (__eq__ a b = true <-> name a = name b).
Proof.
  intros NC. rewrite eq_formula_iff. split; [apply NC | congruence].
Qed.

(** C10: [a == b] is decided by the hashes of the two names alone.  Equal
    names give equal formulas; two formulas with different names whose
    hashes collide compare equal as well; and a formula compares equal to
    any hashable object with the same hash, for one the [str] object
    that holds its name. *)
Theorem eq_is_hash_equality {RT : PyRuntime} (a b : formula) :
  (__eq__ a b = true <-> str_hash (name a) = str_hash (name b)) /\
  (name a = name b -> __eq__ a b = true) /\
  (name a <> name b -> str_hash (name a) = str_hash (name b) -> __eq__ a b = true) /\
  (forall (A : Type) (HA : PyHashable (RT:=RT) A) (other : A),
      __eq__ a other = true <-> py_hash other = __hash__ a) /\
  __eq__ a (name a) = true.
Proof.
  repeat split.
  - apply eq_formula_iff.
  - apply eq_formula_iff.
  - apply eq_formula_name.
  - intros _ H. now apply eq_formula_iff.
  - unfold __eq__. intros H. apply Z.eqb_eq in H. congruence.
  - unfold __eq__. intros H. apply Z.eqb_eq. congruence.
  - unfold __eq__, py_hash, str_hashable, __hash__. apply Z.eqb_refl.
Qed.

(** With the constant hash, two different atoms are equal. *)
Example eq_under_collision :
  let RT := {| str_hash := fun _ => 0%Z; set_order := id;
               set_order_perm := fun l => Permutation_refl l |} in
  name p <> name q /\ __eq__ (RT:=RT) p q = true.
Proof. split; [discriminate | reflexivity]. Qed.

(** The atom named ["x => x"] and the atom ["x"]: their two implications
    have the same name. *)
Example ambiguous_names :
  let a := PrimitiveProposition "x" in
  let b := PrimitiveProposition "x => x" in
  __eq__ (RT:=ideal) a b = false /\
  name (a --> b) = name (b --> a) /\
  __eq__ (RT:=ideal) (a --> b) (b --> a) = true.
Proof. repeat split. Qed.

(** C2, as stated, fails whatever the runtime's hash is: take the atoms
    [a] named ["x"] and [b] named ["x => x"].  Either their hashes collide,
    and [a == b] with different names; or [a != b], and yet
    [Proposition a b == Proposition b a], both being named
    ["(x => x => x)"]. *)
Lemma structural_equality_fails :
  ~ (exists RT : PyRuntime, forall a b : formula,
        (__eq__ a b = true <-> name a = name b) /\
        (__eq__ a b = false -> __eq__ (a --> b) (b --> a) = false)).
Proof.
  intros [RT H].
  pose (a := PrimitiveProposition "x").
  pose (b := PrimitiveProposition "x => x").
  destruct (__eq__ a b) eqn:E.
  - apply (H a b) in E. discriminate E.
  - apply (H a b) in E.
    rewrite eq_formula_name in E; [discriminate E | reflexivity].
Qed.

(** C2, amended: for formulas whose atom names hold no parenthesis and no
    space, and when the hash does not collide on the names compared,
    [a == b] exactly when the names are the same, which is exactly when the
    formulas are the same tree; and then [Proposition a b != Proposition b a]
    whenever [a != b]. *)
Theorem structural_equality_plain {RT : PyRuntime} (a b : formula) :
  plain a = true -> plain b = true ->
  no_collision (name a) (name b) ->
  no_collision (name (a --> b)) (name (b --> a)) ->
  (__eq__ a b = true <-> name a = name b) /\
  (name a = name b <-> a = b) /\
  (__eq__ a b = false -> __eq__ (a --> b) (b --> a) = false).
Proof.
  intros Ha Hb NC NC'. split; [|split].
  - now apply eq_formula_no_collision.
  - split; [now apply name_inj | congruence].
  - intros Hne. destruct (__eq__ (a --> b) (b --> a)) eqn:E; [|reflexivity].
    apply eq_formula_no_collision in E; [|assumption].
    apply name_inj in E; [| simpl; now rewrite Ha, Hb | simpl; now rewrite Ha, Hb].
    injection E as -> _. now rewrite eq_formula_refl in Hne.
Qed.

Lemma structural_equality_plain_witness :
  __eq__ (RT:=ideal) p q = false /\
  __eq__ (RT:=ideal) (p --> q) (q --> p) = false.
Proof.
  split; [reflexivity|].
  apply (structural_equality_plain (RT:=ideal) p q).
  - reflexivity.
  - reflexivity.
  - unfold no_collision. vm_compute. intros H. discriminate H.
  - unfold no_collision. vm_compute. intros H. discriminate H.
  - reflexivity.
Defined.

(** ** The store: what a proof object holds, and how it grows *)

Lemma holds_distinct h pf P L A :
  holds h pf P L A ->
  premises pf <> lines pf /\ premises pf <> applications pf /\
  lines pf <> applications pf.
Proof. intros (H1 & H2 & H3). repeat split; congruence. Qed.

Lemma add_row_holds h pf P L A x s :
  holds h pf P L A -> holds (add_row pf L A x s h) pf P (L ++ [x]) (A ++ [s]).
Proof.
  intros H. destruct (holds_distinct _ _ _ _ _ H) as (D1 & D2 & D3).
  destruct H as (H1 & H2 & H3). unfold add_row. repeat split.
  - rewrite !list_lookup_insert_ne by congruence. exact H1.
  - rewrite list_lookup_insert_ne by congruence.
    apply list_lookup_insert_eq. now apply lookup_lt_Some in H2.
  - apply list_lookup_insert_eq. rewrite length_insert.
    now apply lookup_lt_Some in H3.
Qed.

Lemma add_row_other pf L A x s h l :
  l <> lines pf -> l <> applications pf -> add_row pf L A x s h !! l = h !! l.
Proof.
  intros D1 D2. unfold add_row. now rewrite !list_lookup_insert_ne by congruence.
Qed.

Lemma add_row_length pf L A x s h : length (add_row pf L A x s h) = length h.
Proof. unfold add_row. now rewrite !length_insert. Qed.

Lemma holds_fun h pf P L A P' L' A' :
  holds h pf P L A -> holds h pf P' L' A' -> P' = P /\ L' = L /\ A' = A.
Proof. intros (H1 & H2 & H3) (H1' & H2' & H3'). repeat split; congruence. Qed.

Lemma grows_refl pf h : grows pf h h.
Proof.
  repeat split; auto. intros P L A H. exists [], []. now rewrite !app_nil_r.
Qed.

Lemma grows_trans pf h1 h2 h3 : grows pf h1 h2 -> grows pf h2 h3 -> grows pf h1 h3.
Proof.
  intros (E1 & F1 & G1) (E2 & F2 & G2). repeat split.
  - congruence.
  - intros l D1 D2. now rewrite F2, F1.
  - intros P L A H. destruct (G1 _ _ _ H) as (Lx & Ax & Hl & H').
    destruct (G2 _ _ _ H') as (Ly & Ay & Hl' & H'').
    exists (Lx ++ Ly), (Ax ++ Ay). rewrite !length_app, !app_assoc. split; [lia | exact H''].
Qed.

Lemma grows_add_row h pf P L A x s :
  holds h pf P L A -> grows pf h (add_row pf L A x s h).
Proof.
  intros H. repeat split.
  - apply add_row_length.
  - intros l. apply add_row_other.
  - intros P' L' A' H'. destruct (holds_fun _ _ _ _ _ _ _ _ H H') as (-> & -> & ->).
    exists [x], [s]. split; [reflexivity | now apply add_row_holds].
Qed.

Lemma grows_holds pf h h' :
  grows pf h h' -> (exists P L A, holds h pf P L A) -> exists P L A, holds h' pf P L A.
Proof.
  intros (_ & _ & G) (P & L & A & H). destruct (G _ _ _ H) as (Lx & Ax & _ & H').
  eauto.
Qed.

(** *** The monad *)

Lemma bind_Return {X Y : Type} (m : M X) (k : X -> M Y) h a h' :
  m h = (Return a, h') -> bind m k h = k a h'.
Proof. intros E. unfold bind. now rewrite E. Qed.

Lemma bind_Raise {X Y : Type} (m : M X) (k : X -> M Y) h e h' :
  m h = (Raise e, h') -> bind m k h = (Raise e, h').
Proof. intros E. unfold bind. now rewrite E. Qed.

Lemma bind_inv {X Y : Type} (m : M X) (k : X -> M Y) h r h' :
  bind m k h = (r, h') ->
  (exists a h1, m h = (Return a, h1) /\ k a h1 = (r, h')) \/
  (exists e, m h = (Raise e, h') /\ r = Raise e).
Proof.
  unfold bind. destruct (m h) as [[a | e] h1]; intros E.
  - left. eauto.
  - right. injection E as <- <-. eauto.
Qed.

Lemma extends_only_appends {X : Type} Q pf (m : M X) :
  extends Q pf m -> only_appends pf m.
Proof. intros H h r h' W E. apply (H h r h' W E). Qed.

Lemma extends_weaken {X : Type} (Q Q' : exn -> Prop) pf (m : M X) :
  (forall e, Q e -> Q' e) -> extends Q pf m -> extends Q' pf m.
Proof.
  intros HQ H h r h' W E. destruct (H h r h' W E) as [G R]. split; auto.
Qed.

Lemma extends_ret {X : Type} Q pf (a : X) : extends Q pf (ret a).
Proof.
  intros h r h' _ E. injection E as <- <-. split; [apply grows_refl | discriminate].
Qed.

Lemma extends_raise {X : Type} (Q : exn -> Prop) pf e :
  Q e -> extends Q pf (raise (A:=X) e).
Proof.
  intros HQ h r h' _ E. injection E as <- <-.
  split; [apply grows_refl | now intros e' [= <-]].
Qed.

Lemma extends_bind {X Y : Type} Q pf (m : M X) (k : X -> M Y) :
  extends Q pf m -> (forall a, extends Q pf (k a)) -> extends Q pf (bind m k).
Proof.
  intros Hm Hk h r h' W E.
  apply bind_inv in E as [(a & h1 & E1 & E2) | (e & E1 & ->)].
  - destruct (Hm _ _ _ W E1) as [G1 _].
    destruct (Hk a _ _ _ (grows_holds _ _ _ G1 W) E2) as [G2 R2].
    split; [now apply (grows_trans _ _ h1) | exact R2].
  - destruct (Hm _ _ _ W E1) as [G1 R1].
    split; [exact G1 | intros e' [= <-]; now apply R1].
Qed.

Lemma get_set_inv l h r h' :
  get_set l h = (r, h') ->
  h' = h /\ ((exists s, h !! l = Some (PySet s) /\ r = Return s) \/ r = Raise InvalidObject).
Proof.
  unfold get_set. destruct (h !! l) as [[s | xs | xs] |]; intros E;
    injection E as <- <-; split; eauto.
Qed.

Lemma get_list_inv l h r h' :
  get_list l h = (r, h') ->
  h' = h /\ ((exists s, h !! l = Some (PyList s) /\ r = Return s) \/ r = Raise InvalidObject).
Proof.
  unfold get_list. destruct (h !! l) as [[s | xs | xs] |]; intros E;
    injection E as <- <-; split; eauto.
Qed.

Lemma extends_get_set (Q : exn -> Prop) pf l :
  Q InvalidObject -> extends Q pf (get_set l).
Proof.
  intros HQ h r h' _ E. apply get_set_inv in E as [-> R].
  split; [apply grows_refl |].
  intros e ->. destruct R as [(s & _ & [=]) | [= ->]]. exact HQ.
Qed.

Lemma extends_get_list (Q : exn -> Prop) pf l :
  Q InvalidObject -> extends Q pf (get_list l).
Proof.
  intros HQ h r h' _ E. apply get_list_inv in E as [-> R].
  split; [apply grows_refl |].
  intros e ->. destruct R as [(s & _ & [=]) | [= ->]]. exact HQ.
Qed.

Lemma extends_for_each {X : Type} Q pf (xs : list X) (body : X -> M unit) :
  (forall x, In x xs -> extends Q pf (body x)) -> extends Q pf (for_each xs body).
Proof.
  induction xs as [|x xs IH]; simpl; intros Hb.
  - apply extends_ret.
  - apply extends_bind; [apply Hb; now left |].
    intros _. apply IH. intros y Hy. apply Hb. now right.
Qed.

(** ** The step constructors *)

Section ProofFacts.
Context {RT : PyRuntime}.

Lemma list_contains_index x L :
  list_contains x L = true -> exists i, list_index x L = Some i.
Proof.
  induction L as [|y L IH]; simpl; [discriminate|].
  destruct (__eq__ y x); simpl; [eauto|].
  intros H. destruct (IH H) as [i ->]. simpl. eauto.
Qed.

Lemma list_index_contains x L i :
  list_index x L = Some i -> list_contains x L = true.
Proof.
  revert i. induction L as [|y L IH]; simpl; [discriminate|].
  destruct (__eq__ y x); simpl; [reflexivity|].
  destruct (list_index x L); [eauto | discriminate].
Qed.

Lemma list_index_app x L L' i :
  list_index x L = Some i -> list_index x (L ++ L') = Some i.
Proof.
  revert i. induction L as [|y L IH]; simpl; [discriminate|].
  destruct (__eq__ y x); [auto|].
  destruct (list_index x L); [|discriminate].
  intros i E. now rewrite (IH _ eq_refl).
Qed.

Lemma list_index_first x L i :
  list_index x L = Some i -> first_occurrence x L i.
Proof.
  revert i. induction L as [|y L IH]; simpl; [discriminate|].
  destruct (__eq__ y x) eqn:E.
  - intros i [= <-]. split; [exists y; now split | intros k z Hk; lia].
  - destruct (list_index x L) as [i'|]; [|discriminate].
    intros i [= <-]. destruct (IH _ eq_refl) as [(z & Hz & Ez) Hlt]. split.
    + exists z. now split.
    + intros [|k] w Hk; simpl; [now intros [= <-] | apply Hlt; lia].
Qed.

Lemma list_contains_In x L : In x L -> list_contains x L = true.
Proof.
  intros H. apply existsb_exists. exists x. split; [exact H | apply eq_formula_refl].
Qed.

Lemma list_contains_app x L L' :
  list_contains x L = true -> list_contains x (L ++ L') = true.
Proof. unfold list_contains. intros H. now rewrite existsb_app, H. Qed.

Lemma list_contains_eq x y L :
  __eq__ x y = true -> list_contains x L = list_contains y L.
Proof.
  intros E. unfold list_contains. induction L as [|z L IH]; simpl; [reflexivity|].
  rewrite IH. f_equal.
  destruct (__eq__ z x) eqn:E1, (__eq__ z y) eqn:E2; try reflexivity.
  - now rewrite (eq_formula_trans z x y E1 E) in E2.
  - rewrite eq_formula_sym in E. now rewrite (eq_formula_trans z y x E2 E) in E1.
Qed.

Lemma get_set_run h l s : h !! l = Some (PySet s) -> get_set l h = (Return s, h).
Proof. intros E. unfold get_set. now rewrite E. Qed.

Lemma get_list_run h l L : h !! l = Some (PyList L) -> get_list l h = (Return L, h).
Proof. intros E. unfold get_list. now rewrite E. Qed.

Lemma get_strs_run h l A : h !! l = Some (PyStrList A) -> get_strs l h = (Return A, h).
Proof. intros E. unfold get_strs. now rewrite E. Qed.

(** Appending a line and then its application. *)
Lemma append_row_run h pf P L A x s :
  holds h pf P L A ->
  (list_append (lines pf) x ;;; strs_append (applications pf) s) h
  = (Return tt, add_row pf L A x s h).
Proof.
  intros H. destruct (holds_distinct _ _ _ _ _ H) as (_ & _ & D).
  destruct H as (_ & H2 & H3).
  unfold bind, list_append, strs_append. rewrite H2.
  rewrite list_lookup_insert_ne by congruence. now rewrite H3.
Qed.

Lemma axiom_1_run h pf P L A a b :
  holds h pf P L A ->
  axiom_1 pf a b h = (Return tt, add_row pf L A (a --> (b --> a)) "(A1)" h).
Proof. apply append_row_run. Qed.

Lemma axiom_2_run h pf P L A a b c :
  holds h pf P L A ->
  axiom_2 pf a b c h
  = (Return tt,
     add_row pf L A ((a --> (b --> c)) --> ((a --> b) --> (a --> c))) "(A2)" h).
Proof. apply append_row_run. Qed.

Lemma axiom_3_run h pf P L A a :
  holds h pf P L A ->
  axiom_3 pf a h
  = (Return tt, add_row pf L A (((a --> false_) --> false_) --> a) "(A3)" h).
Proof. apply append_row_run. Qed.

Lemma modus_ponens_no_antecedent h pf P L A a b :
  holds h pf P L A -> list_contains a L = false ->
  modus_ponens pf a b h = (Raise (UnprovenAntecedent a), h).
Proof.
  intros (_ & H2 & _) E. unfold modus_ponens.
  rewrite (bind_Return _ _ _ _ _ (get_list_run _ _ _ H2)). now rewrite E.
Qed.

Lemma modus_ponens_no_implication h pf P L A a b :
  holds h pf P L A ->
  list_contains a L = true -> list_contains (a --> b) L = false ->
  modus_ponens pf a b h = (Raise (UnprovenImplication (a --> b)), h).
Proof.
  intros (_ & H2 & _) E1 E2. unfold modus_ponens.
  rewrite (bind_Return _ _ _ _ _ (get_list_run _ _ _ H2)). rewrite E1. simpl.
  rewrite (bind_Return _ _ _ _ _ (get_list_run _ _ _ H2)). now rewrite E2.
Qed.

Lemma modus_ponens_ok h pf P L A a b :
  holds h pf P L A ->
  list_contains a L = true -> list_contains (a --> b) L = true ->
  exists i j,
    list_index a L = Some i /\ list_index (a --> b) L = Some j /\
    modus_ponens pf a b h = (Return tt, add_row pf L A b (MP_application i j) h).
Proof.
  intros H E1 E2.
  destruct (list_contains_index _ _ E1) as [i Hi].
  destruct (list_contains_index _ _ E2) as [j Hj].
  exists i, j. split; [exact Hi | split; [exact Hj|]].
  destruct (holds_distinct _ _ _ _ _ H) as (_ & _ & D).
  destruct H as (_ & H2 & H3).
  assert (Hlt : lines pf < length h) by now apply lookup_lt_Some in H2.
  unfold modus_ponens.
  rewrite (bind_Return _ _ _ _ _ (get_list_run _ _ _ H2)). rewrite E1. simpl.
  rewrite (bind_Return _ _ _ _ _ (get_list_run _ _ _ H2)). rewrite E2. simpl.
  unfold bind at 1. unfold list_append. rewrite H2.
  set (h1 := <[lines pf := PyList (L ++ [b])]> h).
  assert (H2' : h1 !! lines pf = Some (PyList (L ++ [b])))
    by now apply list_lookup_insert_eq.
  unfold index_in.
  unfold bind at 1. unfold bind at 1.
  rewrite (get_list_run _ _ _ H2'), (list_index_app _ _ [b] _ Hi). unfold ret at 1.
  unfold bind at 1. unfold bind at 1.
  rewrite (get_list_run _ _ _ H2'), (list_index_app _ _ [b] _ Hj). unfold ret at 1.
  unfold strs_append. subst h1.
  rewrite list_lookup_insert_ne by congruence. now rewrite H3.
Qed.
End ProofFacts.

(** [modus_ponens(a, b)] returns exactly when some line is equal ([==]) to
    [a] and some line is equal to [(a > b)]; it then appends [b] as the new
    last line, with the application ["(MP i, j)"] where [i] and [j] are the
    1-based positions of the first lines equal to [a] and to [(a > b)]. *)
Lemma modus_ponens_by_eq {RT : PyRuntime} h pf P L A a b :
  holds h pf P L A ->
  ((exists h', modus_ponens pf a b h = (Return tt, h')) <->
     list_contains a L = true /\ list_contains (a --> b) L = true) /\
  (forall h', modus_ponens pf a b h = (Return tt, h') ->
     exists i j,
       first_occurrence a L i /\ first_occurrence (a --> b) L j /\
       holds h' pf P (L ++ [b])
         (A ++ ["(MP " +:+ pretty (i + 1)%nat +:+ ", " +:+ pretty (j + 1)%nat +:+ ")"])).
Proof.
  intros H.
  destruct (list_contains a L) eqn:E1; [destruct (list_contains (a --> b) L) eqn:E2 |].
  - destruct (modus_ponens_ok _ _ _ _ _ _ _ H E1 E2) as (i & j & Hi & Hj & Run).
    split; [split; eauto |].
    intros h' Run'. rewrite Run in Run'. injection Run' as <-.
    exists i, j. split; [now apply list_index_first|].
    split; [now apply list_index_first|].
    now apply add_row_holds.
  - rewrite (modus_ponens_no_implication _ _ _ _ _ _ _ H E1 E2).
    split; [split |]; [intros [h' [=]] | intros [_ [=]] | intros h' [=]].
  - rewrite (modus_ponens_no_antecedent _ _ _ _ _ _ _ H E1).
    split; [split |]; [intros [h' [=]] | intros [[=] _] | intros h' [=]].
Qed.

Section Occurrence.
Context {RT : PyRuntime}.

Lemma told_apart_eq x L y :
  told_apart x L -> In y L -> (__eq__ y x = true <-> y = x).
Proof.
  intros [Hx HL] Hy. destruct (HL y Hy) as [Hpy NC].
  rewrite (eq_formula_no_collision y x NC).
  split; [now apply name_inj | congruence].
Qed.

Lemma told_apart_contains x L :
  told_apart x L -> (list_contains x L = true <-> In x L).
Proof.
  intros T. unfold list_contains. rewrite existsb_exists. split.
  - intros (y & Hy & E). apply (told_apart_eq x L y T Hy) in E. now subst.
  - intros Hx. exists x. split; [assumption | apply eq_formula_refl].
Qed.

Lemma told_apart_first x L i :
  told_apart x L -> first_occurrence x L i -> first_position x L i.
Proof.
  intros T [(y & Hy & E) Hbefore].
  assert (Hin : In y L)
    by (apply list_elem_of_In; eapply list_elem_of_lookup_2; eauto).
  apply (told_apart_eq x L y T Hin) in E. subst y. split; [assumption|].
  intros k Hk Hx. specialize (Hbefore k x Hk Hx).
  rewrite eq_formula_refl in Hbefore. discriminate.
Qed.
End Occurrence.

(** C3, as stated, fails whatever the runtime's hash is.  On the lines [p]
    and the atom named ["(p => ⊥)"], [modus_ponens(p, false)] returns: the
    atom has the name of [(p > false)] and so compares equal to it; yet the
    implication [(p > false)] does not occur among the lines. *)
Lemma modus_ponens_sound_fails :
  ~ (exists RT : PyRuntime, forall h pf P L A a b,
        holds h pf P L A ->
        ((exists h', modus_ponens pf a b h = (Return tt, h')) <->
           In a L /\ In (a --> b) L)).
Proof.
  intros [RT H].
  assert (Hh : holds lookalike_store small_proof [p; lookalike] [p; lookalike]
                 ["(premise)"; "(premise)"]) by (repeat split).
  assert (E1 : list_contains p [p; lookalike] = true).
  { unfold list_contains. cbn [existsb]. now rewrite eq_formula_refl. }
  assert (E2 : list_contains (p --> false_) [p; lookalike] = true).
  { unfold list_contains. cbn [existsb].
    rewrite (eq_formula_name lookalike (p --> false_) eq_refl).
    now rewrite orb_true_r. }
  destruct (modus_ponens_ok _ _ _ _ _ _ _ Hh E1 E2) as (i & j & _ & _ & Run).
  destruct (proj1 (H _ _ _ _ _ p false_ Hh) (ex_intro _ _ Run)) as [_ [F | [F | []]]];
    discriminate F.
Qed.

(** C3, amended: on lines with plain atom names, for [a] and [b] with plain
    atom names, and when the hash tells the names of [a] and of [(a > b)]
    from the names of the lines, [modus_ponens(a, b)] succeeds exactly when
    [a] and [(a > b)] both occur among the lines; it then appends [b] as the
    new last line, with the application ["(MP i, j)"] where [i] and [j] are
    the 1-based positions of the first occurrence of [a] and of [(a > b)]. *)
Theorem modus_ponens_sound {RT : PyRuntime} h pf P L A a b :
  holds h pf P L A ->
  told_apart a L -> told_apart (a --> b) L ->
  ((exists h', modus_ponens pf a b h = (Return tt, h')) <->
     In a L /\ In (a --> b) L) /\
  (forall h', modus_ponens pf a b h = (Return tt, h') ->
     exists i j,
       first_position a L i /\ first_position (a --> b) L j /\
       holds h' pf P (L ++ [b])
         (A ++ ["(MP " +:+ pretty (i + 1)%nat +:+ ", " +:+ pretty (j + 1)%nat +:+ ")"])).
Proof.
  intros H Ta Tab.
  destruct (modus_ponens_by_eq h pf P L A a b H) as [Iff Run].
  split.
  - rewrite Iff, (told_apart_contains a L Ta), (told_apart_contains (a --> b) L Tab).
    reflexivity.
  - intros h' E. destruct (Run h' E) as (i & j & Hi & Hj & Hh).
    exists i, j. split; [now apply told_apart_first|].
    split; [now apply told_apart_first | exact Hh].
Qed.

Lemma modus_ponens_sound_witness :
  holds small_store small_proof [p; p --> q] [p; p --> q] ["(premise)"; "(premise)"] /\
  told_apart (RT:=ideal) p [p; p --> q] /\
  told_apart (RT:=ideal) (p --> q) [p; p --> q] /\
  exists h', modus_ponens (RT:=ideal) small_proof p q small_store = (Return tt, h').
Proof.
  assert (H : holds small_store small_proof [p; p --> q] [p; p --> q]
                ["(premise)"; "(premise)"]) by (repeat split).
  assert (Ta : told_apart (RT:=ideal) p [p; p --> q]).
  { split; [reflexivity|]. intros y [<- | [<- | []]];
      (split; [reflexivity | exact (code_inj _ _)]). }
  assert (Tab : told_apart (RT:=ideal) (p --> q) [p; p --> q]).
  { split; [reflexivity|]. intros y [<- | [<- | []]];
      (split; [reflexivity | exact (code_inj _ _)]). }
  split; [exact H|]. split; [exact Ta|]. split; [exact Tab|].
  apply (proj2 (proj1 (modus_ponens_sound (RT:=ideal) _ _ _ _ _ p q H Ta Tab))).
  split; simpl; auto.
Defined.



(** C5: on a proof object, the three axiom constructors always return;
    each appends one line, the instance of its schema, and the matching
    application. *)
Theorem axioms_total h pf P L A a b c :
  holds h pf P L A ->
  (exists h1, axiom_1 pf a b h = (Return tt, h1) /\
     holds h1 pf P (L ++ [Proposition a (Proposition b a)]) (A ++ ["(A1)"])) /\
  (exists h2, axiom_2 pf a b c h = (Return tt, h2) /\
     holds h2 pf P
       (L ++ [Proposition (Proposition a (Proposition b c))
                (Proposition (Proposition a b) (Proposition a c))])
       (A ++ ["(A2)"])) /\
  (exists h3, axiom_3 pf a h = (Return tt, h3) /\
     holds h3 pf P
       (L ++ [Proposition (Proposition (Proposition a (PrimitiveProposition "⊥"))
                             (PrimitiveProposition "⊥")) a])
       (A ++ ["(A3)"])).
Proof.
  intros H. split; [|split].
  - eexists. split; [now apply (axiom_1_run _ _ _ _ _ _ _ H) | now apply add_row_holds].
  - eexists. split; [now apply (axiom_2_run _ _ _ _ _ _ _ _ H) | now apply add_row_holds].
  - eexists. split; [now apply (axiom_3_run _ _ _ _ _ _ H) | now apply add_row_holds].
Qed.

Lemma axioms_total_witness :
  exists h3, axiom_3 small_proof p small_store = (Return tt, h3) /\
    h3 !! 1 = Some (PyList [p; p --> q; ((p --> false_) --> false_) --> p]).
Proof.
  assert (H : holds small_store small_proof [p; p --> q] [p; p --> q]
                ["(premise)"; "(premise)"]) by (repeat split).
  destruct (proj2 (proj2 (axioms_total _ _ _ _ _ p p p H)))
    as (h3 & Run & _ & Hl & _).
  exists h3. split; [exact Run | exact Hl].
Defined.

Lemma use_deduction_theorem_missing {RT : PyRuntime} h pf P premise :
  h !! premises pf = Some (PySet P) -> set_contains premise P = false ->
  use_deduction_theorem pf premise h = (Raise (MissingPremise premise), h).
Proof.
  intros H E. unfold use_deduction_theorem.
  rewrite (bind_Return _ _ _ _ _ (get_set_run _ _ _ H)). now rewrite E.
Qed.



(** ** The transformer *)

Section TransformerFacts.
Context {RT : PyRuntime}.

Lemma extends_append_row {X : Type} Q pf x s (k : M X) :
  extends Q pf k ->
  extends Q pf (list_append (lines pf) x ;;; strs_append (applications pf) s ;;; k).
Proof.
  intros Hk h r h' W E. destruct W as (P & L & A & H).
  pose proof (append_row_run _ _ _ _ _ x s H) as Run.
  assert (E' : k (add_row pf L A x s h) = (r, h')).
  { revert E Run. unfold bind.
    destruct (list_append (lines pf) x h) as [[[] | e] h1]; [|discriminate].
    destruct (strs_append (applications pf) s h1) as [[[] | e] h2]; [|discriminate].
    now intros E [= ->]. }
  pose proof (grows_add_row _ _ _ _ _ x s H) as G.
  destruct (Hk _ _ _ (grows_holds _ _ _ G (ex_intro _ P (ex_intro _ L (ex_intro _ A H)))) E')
    as [G' R].
  split; [now apply (grows_trans _ _ _ _ G) | exact R].
Qed.

Lemma extends_axiom_1 Q pf a b : extends Q pf (axiom_1 pf a b).
Proof.
  intros h r h' (P & L & A & H) E. rewrite (axiom_1_run _ _ _ _ _ _ _ H) in E.
  injection E as <- <-. split; [now apply (grows_add_row _ _ P) | discriminate].
Qed.

Lemma extends_axiom_2 Q pf a b c : extends Q pf (axiom_2 pf a b c).
Proof.
  intros h r h' (P & L & A & H) E. rewrite (axiom_2_run _ _ _ _ _ _ _ _ H) in E.
  injection E as <- <-. split; [now apply (grows_add_row _ _ P) | discriminate].
Qed.

Lemma extends_axiom_3 Q pf a : extends Q pf (axiom_3 pf a).
Proof.
  intros h r h' (P & L & A & H) E. rewrite (axiom_3_run _ _ _ _ _ _ H) in E.
  injection E as <- <-. split; [now apply (grows_add_row _ _ P) | discriminate].
Qed.

Lemma extends_modus_ponens (Q : exn -> Prop) pf a b :
  Q (UnprovenAntecedent a) -> Q (UnprovenImplication (a --> b)) ->
  extends Q pf (modus_ponens pf a b).
Proof.
  intros Q1 Q2 h r h' (P & L & A & H) E.
  destruct (list_contains a L) eqn:E1; [destruct (list_contains (a --> b) L) eqn:E2 |].
  - destruct (modus_ponens_ok _ _ _ _ _ _ _ H E1 E2) as (i & j & _ & _ & Run).
    rewrite Run in E. injection E as <- <-.
    split; [now apply (grows_add_row _ _ P) | discriminate].
  - rewrite (modus_ponens_no_implication _ _ _ _ _ _ _ H E1 E2) in E.
    injection E as <- <-. split; [apply grows_refl | now intros e [= <-]].
  - rewrite (modus_ponens_no_antecedent _ _ _ _ _ _ _ H E1) in E.
    injection E as <- <-. split; [apply grows_refl | now intros e [= <-]].
Qed.

End TransformerFacts.

(** Sequences of step constructors. *)
Ltac extends_steps :=
  repeat first [ apply extends_axiom_1 | apply extends_axiom_2
               | apply extends_axiom_3
               | apply extends_modus_ponens; solve [auto]
               | apply extends_bind; [|intros _] ].

Section LoopFacts.
Context {RT : PyRuntime}.

(** The body of the loop only appends to the new proof.  Its exceptions
    are those of [modus_ponens], an invalid reference, and the one of the
    case-4 scan. *)
Lemma extends_deduce_line (Q : exn -> Prop) proof new_proof premise entry :
  Q InvalidObject ->
  (forall x, Q (UnprovenAntecedent x)) -> (forall x, Q (UnprovenImplication x)) ->
  Q (MalformedInputProof (fst entry)) ->
  extends Q new_proof (deduce_line proof new_proof premise entry).
Proof.
  intros QI QA QM QF. destruct entry as [line application]. unfold deduce_line.
  destruct (__eq__ line premise); [extends_steps|].
  apply extends_bind; [now apply extends_get_set | intros s].
  destruct (set_contains line s); [extends_steps|].
  destruct (String.prefix "(A" application).
  { apply extends_append_row. extends_steps. }
  apply extends_bind; [now apply extends_get_list | intros ls].
  destruct (find_pair ls line) as [[tj tk] |]; [extends_steps|].
  now apply extends_raise.
Qed.

Lemma new_store_holds h P premise :
  holds (new_store_of h P premise) (new_proof_of h)
    (set_difference P (set_display [premise]))
    (set_difference P (set_display [premise]))
    (map (fun _ => "(premise)") (set_difference P (set_display [premise]))).
Proof.
  unfold new_store_of, new_proof_of, holds. simpl. repeat split.
  - now apply list_lookup_middle.
  - rewrite (lookup_app_r h) by lia. now replace (S (length h) - length h) with 1 by lia.
  - rewrite (lookup_app_r h) by lia.
    now replace (S (S (length h)) - length h) with 2 by lia.
Qed.

Lemma new_store_old h P premise l :
  l < length h -> new_store_of h P premise !! l = h !! l.
Proof. intros Hl. unfold new_store_of. now apply lookup_app_l. Qed.

(** What the transformer does before its loop. *)
Lemma use_deduction_theorem_run h proof P L A premise :
  holds h proof P L A -> set_contains premise P = true ->
  use_deduction_theorem proof premise h
  = (for_each (combine L A) (deduce_line proof (new_proof_of h) premise) ;;;
     ret (new_proof_of h)) (new_store_of h P premise).
Proof.
  intros (H1 & H2 & H3) E. unfold use_deduction_theorem.
  rewrite (bind_Return _ _ _ _ _ (get_set_run _ _ _ H1)). rewrite E. simpl.
  rewrite (bind_Return _ _ _ _ _ (get_set_run _ _ _ H1)).
  set (Pn := set_difference P (set_display [premise])).
  unfold bind at 1. unfold alloc at 1.
  assert (Hn : (h ++ [PySet Pn]) !! length h = Some (PySet Pn))
    by now apply list_lookup_middle.
  unfold Proof__init__.
  unfold bind at 1. unfold bind at 1.
  rewrite (get_set_run _ _ _ Hn).
  unfold bind at 1. unfold alloc at 1.
  unfold bind at 1. rewrite (get_set_run _ _ _ (lookup_app_l_Some _ [PyList Pn] _ _ Hn)).
  unfold bind at 1. unfold alloc at 1. unfold ret at 1.
  rewrite !length_app. simpl length.
  replace (length h + 1) with (S (length h)) by lia.
  replace (S (length h) + 1) with (S (S (length h))) by lia.
  rewrite <- !app_assoc. simpl app.
  change (h ++ [PySet Pn; PyList Pn; PyStrList (map (fun _ => "(premise)") Pn)])
    with (new_store_of h P premise).
  change {| premises := length h; lines := S (length h); applications := S (S (length h)) |}
    with (new_proof_of h).
  assert (H2' : new_store_of h P premise !! lines proof = Some (PyList L)).
  { rewrite new_store_old; [exact H2 | now apply lookup_lt_Some in H2]. }
  assert (H3' : new_store_of h P premise !! applications proof = Some (PyStrList A)).
  { rewrite new_store_old; [exact H3 | now apply lookup_lt_Some in H3]. }
  rewrite (bind_Return _ _ _ _ _ (get_list_run _ _ _ H2')).
  rewrite (bind_Return _ _ _ _ _ (get_strs_run _ _ _ H3')).
  reflexivity.
Qed.
End LoopFacts.

Lemma Proof__init__run h s P :
  h !! s = Some (PySet P) ->
  Proof__init__ s h
  = (Return {| premises := s; lines := length h; applications := S (length h) |},
     h ++ [PyList P; PyStrList (map (fun _ => "(premise)") P)]).
Proof.
  intros H. unfold Proof__init__.
  rewrite (bind_Return _ _ _ _ _ (get_set_run _ _ _ H)).
  unfold bind at 1. unfold alloc at 1.
  rewrite (bind_Return _ _ _ _ _ (get_set_run _ _ _ (lookup_app_l_Some _ [PyList P] _ _ H))).
  unfold bind, alloc, ret. rewrite length_app. simpl length.
  replace (length h + 1) with (S (length h)) by lia.
  now rewrite <- app_assoc.
Qed.

Lemma combine_app_aligned {X Y : Type} (l1 l2 : list X) (k1 k2 : list Y) :
  length l1 = length k1 ->
  combine (l1 ++ l2) (k1 ++ k2) = combine l1 k1 ++ combine l2 k2.
Proof.
  revert k1. induction l1 as [|x l1 IH]; intros [|y k1]; simpl; try discriminate.
  - reflexivity.
  - intros [= E]. now rewrite IH.
Qed.

(** Past its premise check, the transformer only appends to the proof
    object it has created. *)
Lemma use_deduction_theorem_grows {RT : PyRuntime} h proof P L A premise r h' :
  holds h proof P L A -> set_contains premise P = true ->
  use_deduction_theorem proof premise h = (r, h') ->
  grows (new_proof_of h) (new_store_of h P premise) h' /\
  (forall np, r = Return np -> np = new_proof_of h).
Proof.
  intros H Hp E.
  rewrite (use_deduction_theorem_run _ _ _ _ _ _ H Hp) in E.
  assert (W : exists Pn Ln An,
             holds (new_store_of h P premise) (new_proof_of h) Pn Ln An)
    by (do 3 eexists; apply new_store_holds).
  assert (X : extends (fun _ => True) (new_proof_of h)
                (for_each (combine L A) (deduce_line proof (new_proof_of h) premise)))
    by (apply extends_for_each; intros x _; now apply extends_deduce_line).
  apply bind_inv in E as [([] & h1 & E1 & E2) | (e & E1 & ->)].
  - injection E2 as <- <-. split; [apply (X _ _ _ W E1) | now intros np [= <-]].
  - split; [apply (X _ _ _ W E1) | discriminate].
Qed.

(** C8: a run of the transformer on a proof object, whether it returns or
    raises, leaves every object that was in the store as it was, so the
    premises, lines and applications of the input proof; the proof it
    returns is made of three objects that did not exist before. *)
Theorem deduction_frame {RT : PyRuntime} h proof P L A premise r h' :
  holds h proof P L A ->
  use_deduction_theorem proof premise h = (r, h') ->
  holds h' proof P L A /\
  (forall l, l < length h -> h' !! l = h !! l) /\
  (forall new_proof, r = Return new_proof ->
     h !! premises new_proof = None /\
     h !! lines new_proof = None /\
     h !! applications new_proof = None /\
     exists Pn Ln An, holds h' new_proof Pn Ln An).
Proof.
  intros H E.
  destruct (set_contains premise P) eqn:Hp.
  - destruct (use_deduction_theorem_grows _ _ _ _ _ _ _ _ H Hp E)
      as ((Glen & Gframe & Gholds) & Hr).
    assert (F : forall l, l < length h -> h' !! l = h !! l).
    { intros l Hl. rewrite Gframe; [now apply new_store_old | simpl; lia | simpl; lia]. }
    destruct H as (H1 & H2 & H3).
    split; [|split].
    + repeat split; rewrite F; auto; eapply lookup_lt_Some; eauto.
    + exact F.
    + intros np Hnp. rewrite (Hr np Hnp). simpl.
      rewrite !lookup_ge_None_2 by lia. repeat split.
      destruct (Gholds _ _ _ (new_store_holds h P premise)) as (Lx & Ax & _ & Hn').
      eauto.
  - destruct H as (H1 & H2 & H3).
    rewrite (use_deduction_theorem_missing h proof P premise H1 Hp) in E.
    injection E as <- <-. repeat split; auto; discriminate.
Qed.

Lemma deduction_frame_witness :
  snd (use_deduction_theorem (RT:=ideal) small_proof p
         [PySet [p]; PyList [p]; PyStrList ["(premise)"]]) !! 1
  = Some (PyList [p]).
Proof.
  assert (H : holds [PySet [p]; PyList [p]; PyStrList ["(premise)"]]
                small_proof [p] [p] ["(premise)"]) by (repeat split).
  exact (proj1 (proj2 (proj1
    (deduction_frame (RT:=ideal) _ _ _ _ _ p _ _ H (surjective_pairing _))))).
Defined.

(** C9: the constructor makes two lists of the same length; each step
    constructor, and each step of the transformer on the new proof, whatever
    its outcome, leaves the lists of its proof object with what they held
    followed by as many new lines as new applications, and changes no other
    object; so the two lists keep the same length, and the rows already
    there stay in place. *)
Theorem append_only_aligned {RT : PyRuntime} :
  (forall h s P, h !! s = Some (PySet P) ->
     exists pf h', Proof__init__ s h = (Return pf, h') /\
       holds h' pf P P (map (fun _ => "(premise)") P) /\
       length P = length (map (fun _ : formula => "(premise)") P) /\
       (forall l, l < length h -> h' !! l = h !! l)) /\
  (forall pf a b c,
     only_appends pf (axiom_1 pf a b) /\ only_appends pf (axiom_2 pf a b c) /\
     only_appends pf (axiom_3 pf a) /\ only_appends pf (modus_ponens pf a b)) /\
  (forall proof new_proof premise entry,
     only_appends new_proof (deduce_line proof new_proof premise entry)) /\
  (forall h proof P L A premise new_proof h',
     holds h proof P L A ->
     use_deduction_theorem proof premise h = (Return new_proof, h') ->
     exists Pn Lx Ax,
       holds h' new_proof Pn (Pn ++ Lx) (map (fun _ => "(premise)") Pn ++ Ax) /\
       length Lx = length Ax) /\
  (forall pf h h', grows pf h h' ->
     forall P L A, holds h pf P L A -> length L = length A ->
       exists Lx Ax,
         holds h' pf P (L ++ Lx) (A ++ Ax) /\
         length (L ++ Lx) = length (A ++ Ax) /\
         combine (L ++ Lx) (A ++ Ax) = combine L A ++ combine Lx Ax).
Proof.
  split; [|split; [|split; [|split]]].
  - intros h s P H.
    exists {| premises := s; lines := length h; applications := S (length h) |},
      (h ++ [PyList P; PyStrList (map (fun _ => "(premise)") P)]).
    split; [now apply Proof__init__run|].
    split; [|split].
    + unfold holds. simpl. repeat split.
      * now apply lookup_app_l_Some.
      * now apply list_lookup_middle.
      * rewrite (lookup_app_r h) by lia.
        now replace (S (length h) - length h) with 1 by lia.
    + now rewrite length_map.
    + intros l Hl. now apply lookup_app_l.
  - intros pf a b c. split; [|split; [|split]].
    + apply (extends_only_appends (fun _ => True)), extends_axiom_1.
    + apply (extends_only_appends (fun _ => True)), extends_axiom_2.
    + apply (extends_only_appends (fun _ => True)), extends_axiom_3.
    + now apply (extends_only_appends (fun _ => True)), extends_modus_ponens.
  - intros proof new_proof premise entry.
    now apply (extends_only_appends (fun _ => True)), extends_deduce_line.
  - intros h proof P L A premise np h' H E.
    destruct (set_contains premise P) eqn:Hp.
    + destruct (use_deduction_theorem_grows _ _ _ _ _ _ _ _ H Hp E)
        as ((_ & _ & Gholds) & Hr).
      rewrite (Hr np eq_refl).
      destruct (Gholds _ _ _ (new_store_holds h P premise)) as (Lx & Ax & Hx & Hn).
      eauto.
    + destruct H as (H1 & _).
      rewrite (use_deduction_theorem_missing h proof P premise H1 Hp) in E.
      discriminate E.
  - intros pf h h' (_ & _ & G) P L A H Hlen.
    destruct (G _ _ _ H) as (Lx & Ax & Hx & H'). exists Lx, Ax.
    split; [exact H' | split].
    + rewrite !length_app. lia.
    + now apply combine_app_aligned.
Qed.

Lemma append_only_aligned_witness :
  exists Lx Ax,
    holds (snd (modus_ponens (RT:=ideal) small_proof p q small_store))
      small_proof [p; p --> q] ([p; p --> q] ++ Lx)
      (["(premise)"; "(premise)"] ++ Ax) /\
    length ([p; p --> q] ++ Lx) = length (["(premise)"; "(premise)"] ++ Ax).
Proof.
  assert (H : holds small_store small_proof [p; p --> q] [p; p --> q]
                ["(premise)"; "(premise)"]) by (repeat split).
  destruct (append_only_aligned (RT:=ideal)) as (_ & Hsteps & _ & _ & Hrows).
  destruct (Hsteps small_proof p q p) as (_ & _ & _ & Hmp).
  assert (G : grows small_proof small_store
                (snd (modus_ponens (RT:=ideal) small_proof p q small_store))).
  { apply (Hmp small_store
             (fst (modus_ponens (RT:=ideal) small_proof p q small_store)));
      [|apply surjective_pairing].
    do 3 eexists. exact H. }
  destruct (Hrows _ _ _ G _ _ _ H eq_refl) as (Lx & Ax & H' & Hlen & _).
  exists Lx, Ax. now split.
Defined.

(** ** Premise sets *)

Section SetFacts.
Context {RT : PyRuntime}.

Lemma set_contains_perm x s s' :
  Permutation s s' -> set_contains x s = set_contains x s'.
Proof.
  intros Hp. unfold set_contains.
  induction Hp as [| y s s' _ IH | y z s | s s' s'' _ IH1 _ IH2]; simpl.
  - reflexivity.
  - now rewrite IH.
  - now rewrite !orb_assoc, (orb_comm (__eq__ z x)).
  - congruence.
Qed.

Lemma set_contains_eq x y s :
  __eq__ x y = true -> set_contains x s = set_contains y s.
Proof. apply list_contains_eq. Qed.

Lemma set_contains_cons x e s :
  set_contains x (e :: s) = __eq__ e x || set_contains x s.
Proof. reflexivity. Qed.

(** [x in (s - t)] exactly when [x in s] and [x not in t]. *)
Lemma set_difference_contains x s t :
  set_contains x (set_difference s t)
  = set_contains x s && negb (set_contains x t).
Proof.
  unfold set_difference. rewrite (set_contains_perm _ _ _ (set_order_perm _)).
  induction s as [|e s IH]; [reflexivity|].
  cbn [List.filter]. rewrite (set_contains_cons x e s).
  destruct (set_contains e t) eqn:Et; cbn [negb].
  - rewrite IH. destruct (__eq__ e x) eqn:Ex; [|reflexivity].
    rewrite <- (set_contains_eq e x t Ex), Et. cbn. now rewrite andb_false_r.
  - rewrite set_contains_cons, IH. destruct (__eq__ e x) eqn:Ex; [|reflexivity].
    now rewrite <- (set_contains_eq e x t Ex), Et.
Qed.

(** The premise set of the proof the transformer returns: its members are
    the members of the input's premise set other than [premise]. *)
Lemma new_premises_spec h proof P L A premise new_proof h' :
  holds h proof P L A ->
  use_deduction_theorem proof premise h = (Return new_proof, h') ->
  exists Pn, h' !! premises new_proof = Some (PySet Pn) /\
    forall x, set_contains x Pn = set_contains x P && negb (__eq__ premise x).
Proof.
  intros H E. destruct (set_contains premise P) eqn:Hp.
  - destruct (use_deduction_theorem_grows _ _ _ _ _ _ _ _ H Hp E)
      as ((_ & _ & Gholds) & Hr).
    rewrite (Hr _ eq_refl).
    destruct (Gholds _ _ _ (new_store_holds h P premise)) as (Lx & Ax & _ & Hn & _).
    eexists. split; [exact Hn|].
    intros x. rewrite set_difference_contains. f_equal. f_equal.
    unfold set_display. rewrite (set_contains_perm _ _ _ (set_order_perm _)).
    simpl. now rewrite orb_false_r.
  - destruct H as (H1 & _).
    rewrite (use_deduction_theorem_missing h proof P premise H1 Hp) in E.
    discriminate E.
Qed.
End SetFacts.

(** ** Proofs built through the constructors *)

Section BuiltFacts.
Context {RT : PyRuntime}.

Lemma find_pair_found L line tj tk :
  In tj L -> In tk L -> __eq__ tk (tj --> line) = true -> find_pair L line <> None.
Proof.
  intros Hj Hk E N. unfold find_pair in N.
  pose proof (find_none _ _ N (tj, tk) (in_prod _ _ _ _ Hj Hk)) as F.
  simpl in F. congruence.
Qed.

Lemma find_pair_inv L line tj tk :
  find_pair L line = Some (tj, tk) ->
  In tj L /\ In tk L /\ __eq__ tk (tj --> line) = true.
Proof.
  intros E. unfold find_pair in E. apply find_some in E as [Hin E].
  apply in_prod_iff in Hin as [Hj Hk]. auto.
Qed.

Lemma find_pair_app L L' line :
  find_pair L line <> None -> find_pair (L ++ L') line <> None.
Proof.
  destruct (find_pair L line) as [[tj tk] |] eqn:E; [intros _ | congruence].
  apply find_pair_inv in E as (Hj & Hk & E).
  apply (find_pair_found _ _ tj tk); auto; apply in_or_app; now left.
Qed.

Lemma justified_app P L L' entry :
  justified P L entry -> justified P (L ++ L') entry.
Proof.
  intros [H | [H | H]]; [now left | right; now left | right; right].
  now apply find_pair_app.
Qed.

Lemma Proof__init__inv s h pf h' :
  Proof__init__ s h = (Return pf, h') ->
  exists P, h !! s = Some (PySet P) /\
    pf = {| premises := s; lines := length h; applications := S (length h) |} /\
    h' = h ++ [PyList P; PyStrList (map (fun _ => "(premise)") P)].
Proof.
  intros E. pose proof E as E0. unfold Proof__init__ in E.
  apply bind_inv in E as [(P & h1 & E1 & _) | (e & _ & [=])].
  apply get_set_inv in E1 as [-> [(P' & Hs & [= <-]) | [=]]].
  rewrite (Proof__init__run _ _ _ Hs) in E0. injection E0 as <- <-. eauto.
Qed.

Lemma well_justified_add_row (U : formula -> Prop) h pf P L A x s :
  holds h pf P L A -> length L = length A ->
  (forall y, In y L -> U y) ->
  (forall entry, In entry (combine L A) -> justified P L entry) ->
  U x -> justified P (L ++ [x]) (x, s) ->
  well_justified U (add_row pf L A x s h) pf.
Proof.
  intros H Hlen HU Hj Ux Hx. exists P, (L ++ [x]), (A ++ [s]).
  split; [now apply add_row_holds | split; [|split]].
  - rewrite !length_app. simpl. lia.
  - intros y Hy. apply in_app_or in Hy as [Hy | [<- | []]]; auto.
  - intros entry. rewrite combine_app_aligned by exact Hlen.
    intros Hin. apply in_app_or in Hin as [Hin | [<- | []]].
    + now apply justified_app, Hj.
    + exact Hx.
Qed.

Lemma built_well_justified U h pf :
  collision_free U -> built U h pf -> well_justified U h pf.
Proof.
  intros Inj B. induction B as
    [ h s pf h' E HP
    | h pf a b r h' B IH Ux E | h pf a b c r h' B IH Ux E | h pf a r h' B IH Ux E
    | h pf a b r h' B IH Ua Ub E ].
  - apply Proof__init__inv in E as (P & Hs & -> & ->).
    exists P, P, (map (fun _ => "(premise)") P). split; [|split; [|split]].
    + unfold holds. simpl. repeat split.
      * now apply lookup_app_l_Some.
      * now apply list_lookup_middle.
      * rewrite (lookup_app_r h) by lia.
        now replace (S (length h) - length h) with 1 by lia.
    + now rewrite length_map.
    + intros x Hx. now apply (HP P).
    + intros [line app] Hin. left. simpl.
      apply in_combine_l in Hin. now apply list_contains_In.
  - destruct IH as (P & L & A & H & Hlen & HU & Hj).
    rewrite (axiom_1_run _ _ _ _ _ _ _ H) in E. injection E as <- <-.
    apply (well_justified_add_row _ _ _ P); auto. right; now left.
  - destruct IH as (P & L & A & H & Hlen & HU & Hj).
    rewrite (axiom_2_run _ _ _ _ _ _ _ _ H) in E. injection E as <- <-.
    apply (well_justified_add_row _ _ _ P); auto. right; now left.
  - destruct IH as (P & L & A & H & Hlen & HU & Hj).
    rewrite (axiom_3_run _ _ _ _ _ _ H) in E. injection E as <- <-.
    apply (well_justified_add_row _ _ _ P); auto. right; now left.
  - destruct IH as (P & L & A & H & Hlen & HU & Hj).
    destruct (list_contains a L) eqn:E1; [destruct (list_contains (a --> b) L) eqn:E2 |].
    + destruct (modus_ponens_ok _ _ _ _ _ _ _ H E1 E2) as (i & j & _ & _ & Run).
      rewrite Run in E. injection E as <- <-.
      apply (well_justified_add_row _ _ _ P); auto. right; right. simpl.
      apply existsb_exists in E1 as (la & Hla & Ea).
      apply existsb_exists in E2 as (li & Hli & Ei).
      apply (find_pair_found _ _ la li).
      * apply in_or_app. now left.
      * apply in_or_app. now left.
      * apply eq_formula_iff in Ea. apply (Inj la a (HU la Hla) Ua) in Ea.
        apply (eq_formula_trans _ _ _ Ei). apply eq_formula_name.
        simpl. now rewrite Ea.
    + rewrite (modus_ponens_no_implication _ _ _ _ _ _ _ H E1 E2) in E.
      injection E as <- <-. exists P, L, A. auto.
    + rewrite (modus_ponens_no_antecedent _ _ _ _ _ _ _ H E1) in E.
      injection E as <- <-. exists P, L, A. auto.
Qed.
End BuiltFacts.

(** ** The error of the case-4 scan *)

Section ScanFacts.
Context {RT : PyRuntime}.

Lemma not_malformed_InvalidObject : not_malformed InvalidObject.
Proof. intros line. discriminate. Qed.

Lemma not_malformed_antecedent x : not_malformed (UnprovenAntecedent x).
Proof. intros line [= E]. Qed.

Lemma not_malformed_implication x : not_malformed (UnprovenImplication x).
Proof. intros line [= E]. Qed.

Lemma not_malformed_missing x : not_malformed (MissingPremise x).
Proof. intros line [= E]. Qed.

Lemma for_each_cons {X : Type} (x : X) (xs : list X) (body : X -> M unit) :
  for_each (x :: xs) body = (body x ;;; for_each xs body).
Proof. reflexivity. Qed.

Lemma for_each_app {X : Type} (pre post : list X) (body : X -> M unit) h h1 :
  for_each pre body h = (Return tt, h1) ->
  for_each (pre ++ post) body h = for_each post body h1.
Proof.
  revert h. induction pre as [|x pre IH]; simpl; intros h E.
  - now injection E as <-.
  - apply bind_inv in E as [([] & h2 & E1 & E2) | (e & _ & [=])].
    rewrite (bind_Return _ _ _ _ _ E1). now apply IH.
Qed.

Lemma deduce_line_malformed h proof new_proof P L premise line application :
  h !! premises proof = Some (PySet P) -> h !! lines proof = Some (PyList L) ->
  __eq__ line premise = false -> set_contains line P = false ->
  String.prefix "(A" application = false -> find_pair L line = None ->
  deduce_line proof new_proof premise (line, application) h
  = (Raise (MalformedInputProof line), h).
Proof.
  intros H1 H2 E1 E2 E3 E4. unfold deduce_line. rewrite E1.
  rewrite (bind_Return _ _ _ _ _ (get_set_run _ _ _ H1)). rewrite E2, E3.
  rewrite (bind_Return _ _ _ _ _ (get_list_run _ _ _ H2)). now rewrite E4.
Qed.

Lemma deduce_line_safe h proof new_proof P L premise entry r h' :
  (exists Pn Ln An, holds h new_proof Pn Ln An) ->
  h !! premises proof = Some (PySet P) -> h !! lines proof = Some (PyList L) ->
  justified P L entry ->
  deduce_line proof new_proof premise entry h = (r, h') ->
  grows new_proof h h' /\ forall e, r = Raise e -> not_malformed e.
Proof.
  intros W H1 H2 J E. destruct entry as [line application].
  pose proof not_malformed_antecedent as QA.
  pose proof not_malformed_implication as QM.
  unfold deduce_line in E.
  destruct (__eq__ line premise).
  { revert E. match goal with |- ?m h = _ -> _ =>
      assert (X : extends not_malformed new_proof m) by extends_steps end.
    now apply X. }
  rewrite (bind_Return _ _ _ _ _ (get_set_run _ _ _ H1)) in E.
  destruct (set_contains line P) eqn:E2.
  { revert E. match goal with |- ?m h = _ -> _ =>
      assert (X : extends not_malformed new_proof m) by extends_steps end.
    now apply X. }
  destruct (String.prefix "(A" application) eqn:E3.
  { revert E. match goal with |- ?m h = _ -> _ =>
      assert (X : extends not_malformed new_proof m)
        by (apply extends_append_row; extends_steps) end.
    now apply X. }
  rewrite (bind_Return _ _ _ _ _ (get_list_run _ _ _ H2)) in E.
  destruct (find_pair L line) as [[tj tk] |] eqn:E4.
  { revert E. match goal with |- ?m h = _ -> _ =>
      assert (X : extends not_malformed new_proof m) by extends_steps end.
    now apply X. }
  destruct J as [J | [J | J]]; simpl in J; congruence.
Qed.

Lemma loop_safe proof new_proof P L premise entries :
  premises proof <> lines new_proof -> premises proof <> applications new_proof ->
  lines proof <> lines new_proof -> lines proof <> applications new_proof ->
  (forall entry, In entry entries -> justified P L entry) ->
  forall h r h',
    (exists Pn Ln An, holds h new_proof Pn Ln An) ->
    h !! premises proof = Some (PySet P) -> h !! lines proof = Some (PyList L) ->
    for_each entries (deduce_line proof new_proof premise) h = (r, h') ->
    forall e, r = Raise e -> not_malformed e.
Proof.
  intros D1 D2 D3 D4. induction entries as [|entry entries IH]; intros J h r h' W H1 H2 E.
  - injection E as <- <-. discriminate.
  - simpl in E. apply bind_inv in E as [([] & h1 & E1 & E2) | (e & E1 & ->)].
    + destruct (deduce_line_safe _ _ _ _ _ _ _ _ _ W H1 H2 (J _ (or_introl eq_refl)) E1)
        as [G _].
      pose proof (grows_holds _ _ _ G W) as W1.
      destruct G as (_ & F & _).
      apply (IH (fun x Hx => J x (or_intror Hx)) h1 r h' W1); auto.
      * now rewrite F.
      * now rewrite F.
    + destruct (deduce_line_safe _ _ _ _ _ _ _ _ _ W H1 H2 (J _ (or_introl eq_refl)) E1)
        as [_ R].
      intros e' [= <-]. now apply R.
Qed.
End ScanFacts.

(** Under the runtime [colliding], [Proof({p, x > q})] followed by
    [modus_ponens(x, q)]: the atom [x] is equal to the line [p], their hashes
    being the same, so the step succeeds and cites lines 1 and 2.  For the
    line [q] the scan of the transformer compares the lines with [(p > q)],
    [((x > q) > q)] and [(q > q)], finds no pair, and raises. *)
Example collision_scenario :
  exists proof h,
    collision_script collision_store = (Return proof, h) /\
    built (RT:=colliding) (fun _ => True) h proof /\
    holds h proof [p; collision_x --> q] [p; collision_x --> q; q]
      ["(premise)"; "(premise)"; "(MP 1, 2)"] /\
    find_pair (RT:=colliding) [p; collision_x --> q; q] q = None /\
    fst (use_deduction_theorem (RT:=colliding) proof p h)
    = Raise (ValueError "Unable to find the antecedent of q").
Proof.
  pose (pf := {| premises := 0; lines := 1; applications := 2 |}).
  pose (h1 := snd (Proof__init__ 0 collision_store)).
  pose (h2 := snd (modus_ponens (RT:=colliding) pf collision_x q h1)).
  exists pf, h2. split; [vm_compute; reflexivity|]. split.
  { apply (built_modus_ponens _ h1 pf collision_x q (Return tt)); trivial.
    now apply (built_init _ collision_store 0). }
  split; [repeat split|]. split; vm_compute; reflexivity.
Qed.

(** C7, as stated, fails: a proof built by the constructors alone can make
    the transformer raise the error of the scan, when the hash of the
    runtime collides.  With the runtime [colliding] and the proof of
    [collision_script], the transformer called on the premise [p] raises it
    for the line [q]. *)
Lemma malformed_input_reachable :
  ~ (forall (RT : PyRuntime) (U : formula -> Prop) h proof premise r h',
        built U h proof ->
        use_deduction_theorem proof premise h = (r, h') ->
        forall line, r <> Raise (MalformedInputProof line)).
Proof.
  intros H.
  pose (pf := {| premises := 0; lines := 1; applications := 2 |}).
  pose (h1 := snd (Proof__init__ 0 collision_store)).
  pose (h2 := snd (modus_ponens (RT:=colliding) pf collision_x q h1)).
  apply (H colliding (fun _ => True) h2 pf p
           (fst (use_deduction_theorem (RT:=colliding) pf p h2))
           (snd (use_deduction_theorem (RT:=colliding) pf p h2))) with (line := q).
  - apply (built_modus_ponens _ h1 pf collision_x q (Return tt)); trivial.
    now apply (built_init _ collision_store 0).
  - apply surjective_pairing.
  - vm_compute. reflexivity.
Qed.

(** C7, amended: when a line of the input proof reaches case 4 (it is not
    the premise, not a premise, not an axiom) and the scan of the input lines
    finds no pair, the lines before it having been processed, the
    transformer raises the error of the scan.  For a proof built by the
    constructors alone, from formulas on whose names the hash does not
    collide, the transformer never raises it. *)
Theorem malformed_input_proof {RT : PyRuntime} :
  (forall h proof P L A premise pre line application post h1,
     holds h proof P L A -> set_contains premise P = true ->
     combine L A = pre ++ (line, application) :: post ->
     for_each pre (deduce_line proof (new_proof_of h) premise)
       (new_store_of h P premise) = (Return tt, h1) ->
     __eq__ line premise = false -> set_contains line P = false ->
     String.prefix "(A" application = false ->
     find_pair L line = None ->
     use_deduction_theorem proof premise h = (Raise (MalformedInputProof line), h1)) /\
  (forall U h proof premise r h',
     collision_free U -> built U h proof ->
     use_deduction_theorem proof premise h = (r, h') ->
     forall line, r <> Raise (MalformedInputProof line)).
Proof.
  split.
  - intros h proof P L A premise pre line application post h1 H Hp Hc Hpre E1 E2 E3 E4.
    rewrite (use_deduction_theorem_run _ _ _ _ _ _ H Hp). rewrite Hc.
    assert (G : grows (new_proof_of h) (new_store_of h P premise) h1).
    { refine (proj1 (extends_for_each (fun _ => True) _ _ _ _ _ _ _ _ Hpre)).
      - intros x _. now apply extends_deduce_line.
      - do 3 eexists. apply new_store_holds. }
    destruct G as (_ & F & _). destruct H as (H1 & H2 & _).
    assert (H1' : h1 !! premises proof = Some (PySet P)).
    { apply lookup_lt_Some in H1 as Hlt.
      rewrite F, new_store_old; auto; simpl; lia. }
    assert (H2' : h1 !! lines proof = Some (PyList L)).
    { apply lookup_lt_Some in H2 as Hlt.
      rewrite F, new_store_old; auto; simpl; lia. }
    apply bind_Raise. rewrite (for_each_app _ _ _ _ _ Hpre), for_each_cons.
    apply bind_Raise. now apply (deduce_line_malformed _ _ _ P L).
  - intros U h proof premise r h' Inj B E line ->.
    destruct (built_well_justified U h proof Inj B) as (P & L & A & H & Hlen & _ & J).
    destruct (set_contains premise P) eqn:Hp.
    + rewrite (use_deduction_theorem_run _ _ _ _ _ _ H Hp) in E.
      destruct H as (H1 & H2 & H3).
      apply lookup_lt_Some in H1 as Hlt1. apply lookup_lt_Some in H2 as Hlt2.
      apply bind_inv in E as [([] & h1 & _ & [=]) | (e & E1 & [= <-])].
      refine (loop_safe proof (new_proof_of h) P L premise (combine L A)
                _ _ _ _ J _ _ _ _ _ _ E1 _ eq_refl line eq_refl);
        simpl; try lia.
      * do 3 eexists. apply new_store_holds.
      * now rewrite new_store_old.
      * now rewrite new_store_old.
    + destruct H as (H1 & _).
      rewrite (use_deduction_theorem_missing h proof P premise H1 Hp) in E.
      injection E as E _. now apply (not_malformed_missing premise line).
Qed.

Lemma malformed_input_proof_witness :
  use_deduction_theorem (RT:=ideal) small_proof p forged_store
  = (Raise (ValueError "Unable to find the antecedent of q"),
     snd (for_each [(p, "(premise)")]
            (deduce_line (RT:=ideal) small_proof (new_proof_of forged_store) p)
            (new_store_of (RT:=ideal) forged_store [p] p))) /\
  fst (use_deduction_theorem (RT:=ideal) small_proof p
         (snd (modus_ponens (RT:=ideal) small_proof p q small_store)))
  <> Raise (MalformedInputProof q).
Proof.
  destruct (malformed_input_proof (RT:=ideal)) as [Scan Built].
  split.
  - apply (Scan forged_store small_proof [p] [p; q] ["(premise)"; "(MP 1, 1)"] p
             [(p, "(premise)")] q "(MP 1, 1)" []); try reflexivity.
    repeat split.
  - apply (Built (fun _ => True)
             (snd (modus_ponens (RT:=ideal) small_proof p q small_store))
             small_proof p
             (fst (use_deduction_theorem (RT:=ideal) small_proof p
                (snd (modus_ponens (RT:=ideal) small_proof p q small_store))))
             (snd (use_deduction_theorem (RT:=ideal) small_proof p
                (snd (modus_ponens (RT:=ideal) small_proof p q small_store)))));
      [| |apply surjective_pairing].
    + intros a b _ _ H. now apply code_inj.
    + apply (built_modus_ponens _ small_store small_proof p q (Return tt)); trivial.
      now apply (built_init _ [PySet [p; p --> q]] 0).
Defined.

(** ** A valid proof that the transformer rejects *)

(** C1 fails on the code.  The proof [detour] is built by the constructors
    alone, each of which succeeds; its line 4, [t], comes by modus ponens
    from lines 2 and 3.  The scan of case 4 runs over all the lines of the
    input, also those after [t], and its first match for [t] is the pair of
    line 1, [p], and line 6, [(p > t)]; [(p > (p > t))] is not yet a line of
    the new proof, and [modus_ponens] raises.  No proof of [(p > (p > t))]
    is returned. *)
Theorem deduction_rejects_valid_proof :
  exists proof h,
    detour detour_store = (Return proof, h) /\
    built (RT:=ideal) (fun _ => True) h proof /\
    holds h proof [p]
      [p; detour_a; detour_a --> detour_t; detour_t;
       detour_t --> (p --> detour_t); p --> detour_t]
      ["(premise)"; "(A1)"; "(A1)"; "(MP 2, 3)"; "(A1)"; "(MP 4, 5)"] /\
    find_pair (RT:=ideal)
      [p; detour_a; detour_a --> detour_t; detour_t;
       detour_t --> (p --> detour_t); p --> detour_t] detour_t
    = Some (p, p --> detour_t) /\
    fst (use_deduction_theorem (RT:=ideal) proof p h)
    = Raise (ValueError
        "Antecedent (p => (p => (r => (q => (q => q))))) has not been proven: unable to apply modus ponens").
Proof.
  pose (pf := {| premises := 0; lines := 1; applications := 2 |}).
  pose (h1 := snd (Proof__init__ 0 detour_store)).
  pose (h2 := snd (axiom_1 pf q q h1)).
  pose (h3 := snd (axiom_1 pf detour_a r h2)).
  pose (h4 := snd (modus_ponens (RT:=ideal) pf detour_a detour_t h3)).
  pose (h5 := snd (axiom_1 pf detour_t p h4)).
  pose (h6 := snd (modus_ponens (RT:=ideal) pf detour_t (p --> detour_t) h5)).
  exists pf, h6. split; [vm_compute; reflexivity|]. split.
  { assert (B1 : built (RT:=ideal) (fun _ => True) h1 pf)
      by now apply (built_init _ detour_store 0).
    assert (B2 : built (RT:=ideal) (fun _ => True) h2 pf)
      by now apply (built_axiom_1 _ h1 pf q q (Return tt)).
    assert (B3 : built (RT:=ideal) (fun _ => True) h3 pf)
      by now apply (built_axiom_1 _ h2 pf detour_a r (Return tt)).
    assert (B4 : built (RT:=ideal) (fun _ => True) h4 pf)
      by now apply (built_modus_ponens _ h3 pf detour_a detour_t (Return tt)).
    assert (B5 : built (RT:=ideal) (fun _ => True) h5 pf)
      by now apply (built_axiom_1 _ h4 pf detour_t p (Return tt)).
    now apply (built_modus_ponens _ h5 pf detour_t (p --> detour_t) (Return tt)). }
  split; [repeat split|]. split; vm_compute; reflexivity.
Qed.

(** The scenario of the specification, the script of [deduction.py]: from
    [{p, q, p > (q > false)}] the proof concludes [false]; the transformer on
    [p > (q > false)] returns a proof with premises [{p, q}] whose last line
    is [((p > (q > false)) > false)]. *)
Example main_scenario :
  exists proof new_proof h,
    main main_store = (Return (proof, new_proof), h) /\
    fst (conclude proof h) = Return false_ /\
    h !! premises new_proof = Some (PySet [p; q]) /\
    fst (conclude new_proof h) = Return ((p --> (q --> false_)) --> false_).
Proof. eexists _, _, _. vm_compute. repeat split. Qed.

(** * Further properties of the code *)

(** ** Formulas: equality and the connectives *)

(** X1: [==] on formulas is an equivalence relation, and equal formulas
    have equal hashes, which is what [set] and [in] rely on. *)
Theorem eq_equivalence {RT : PyRuntime} :
  (forall a : formula, __eq__ a a = true) /\
  (forall a b : formula, __eq__ a b = __eq__ b a) /\
  (forall a b c : formula,
     __eq__ a b = true -> __eq__ b c = true -> __eq__ a c = true) /\
  (forall a b : formula, __eq__ a b = true -> __hash__ a = __hash__ b).
Proof.
  split; [|split; [|split]].
  - apply eq_formula_refl.
  - apply eq_formula_sym.
  - apply eq_formula_trans.
  - intros a b H. now apply eq_formula_iff.
Qed.

(** X2: formulas with the same name are interchangeable below [>], [~],
    [&] and [|]: the compounds built from them are equal, whatever the
    hash. *)
Theorem connectives_respect_names {RT : PyRuntime} (a a' b b' : formula) :
  name a = name a' -> name b = name b' ->
  __eq__ (a --> b) (a' --> b') = true /\
  __eq__ (__invert__ a) (__invert__ a') = true /\
  __eq__ (__and__ a b) (__and__ a' b') = true /\
  __eq__ (__or__ a b) (__or__ a' b') = true.
Proof.
  intros Ha Hb. repeat split; apply eq_formula_name; simpl; now rewrite ?Ha, ?Hb.
Qed.

Lemma connectives_respect_names_witness :
  __eq__ (RT:=ideal) (__and__ (PrimitiveProposition "(p => q)") r)
    (__and__ (p --> q) r) = true.
Proof.
  apply (connectives_respect_names (RT:=ideal)
           (PrimitiveProposition "(p => q)") (p --> q) r r);
    reflexivity.
Defined.

(** ** [conclude] *)

Section ConcludeFacts.
Context {RT : PyRuntime}.

Lemma conclude_run h pf P L A :
  holds h pf P L A ->
  conclude pf h = (match last L with
                   | Some x => Return x
                   | None => Raise IndexError
                   end, h).
Proof.
  intros (_ & H2 & _). unfold conclude.
  rewrite (bind_Return _ _ _ _ _ (get_list_run _ _ _ H2)).
  destruct (last L); reflexivity.
Qed.
End ConcludeFacts.

(** X3: [conclude] after a step.  Once a step constructor has returned, the
    conclusion is the formula the step derives: the axiom instance, or the
    [q] of [modus_ponens(p, q)].  When [modus_ponens] raises, the conclusion
    is what it was.  On a proof without lines [conclude] raises
    [IndexError]. *)
Theorem conclude_after_step {RT : PyRuntime} h pf P L A :
  holds h pf P L A ->
  (forall a b h1, axiom_1 pf a b h = (Return tt, h1) ->
     conclude pf h1 = (Return (a --> (b --> a)), h1)) /\
  (forall a b c h1, axiom_2 pf a b c h = (Return tt, h1) ->
     conclude pf h1
     = (Return ((a --> (b --> c)) --> ((a --> b) --> (a --> c))), h1)) /\
  (forall a h1, axiom_3 pf a h = (Return tt, h1) ->
     conclude pf h1 = (Return (((a --> false_) --> false_) --> a), h1)) /\
  (forall a b h1, modus_ponens pf a b h = (Return tt, h1) ->
     conclude pf h1 = (Return b, h1)) /\
  (forall a b e h1, modus_ponens pf a b h = (Raise e, h1) ->
     conclude pf h1 = conclude pf h) /\
  (L = [] -> conclude pf h = (Raise IndexError, h)).
Proof.
  intros H. repeat split.
  - intros a b h1 E. rewrite (axiom_1_run _ _ _ _ _ _ _ H) in E. injection E as <-.
    rewrite (conclude_run _ _ _ _ _ (add_row_holds _ _ _ _ _ _ _ H)).
    now rewrite last_snoc.
  - intros a b c h1 E. rewrite (axiom_2_run _ _ _ _ _ _ _ _ H) in E. injection E as <-.
    rewrite (conclude_run _ _ _ _ _ (add_row_holds _ _ _ _ _ _ _ H)).
    now rewrite last_snoc.
  - intros a h1 E. rewrite (axiom_3_run _ _ _ _ _ _ H) in E. injection E as <-.
    rewrite (conclude_run _ _ _ _ _ (add_row_holds _ _ _ _ _ _ _ H)).
    now rewrite last_snoc.
  - intros a b h1 E.
    destruct (list_contains a L) eqn:E1; [destruct (list_contains (a --> b) L) eqn:E2 |].
    + destruct (modus_ponens_ok _ _ _ _ _ _ _ H E1 E2) as (i & j & _ & _ & Run).
      rewrite Run in E. injection E as <-.
      rewrite (conclude_run _ _ _ _ _ (add_row_holds _ _ _ _ _ _ _ H)).
      now rewrite last_snoc.
    + rewrite (modus_ponens_no_implication _ _ _ _ _ _ _ H E1 E2) in E. discriminate E.
    + rewrite (modus_ponens_no_antecedent _ _ _ _ _ _ _ H E1) in E. discriminate E.
  - intros a b e h1 E.
    destruct (list_contains a L) eqn:E1; [destruct (list_contains (a --> b) L) eqn:E2 |].
    + destruct (modus_ponens_ok _ _ _ _ _ _ _ H E1 E2) as (i & j & _ & _ & Run).
      rewrite Run in E. discriminate E.
    + rewrite (modus_ponens_no_implication _ _ _ _ _ _ _ H E1 E2) in E.
      now injection E as _ <-.
    + rewrite (modus_ponens_no_antecedent _ _ _ _ _ _ _ H E1) in E.
      now injection E as _ <-.
  - intros ->. now rewrite (conclude_run _ _ _ _ _ H).
Qed.

Lemma conclude_after_step_witness :
  conclude small_proof (snd (modus_ponens (RT:=ideal) small_proof p q small_store))
  = (Return q, snd (modus_ponens (RT:=ideal) small_proof p q small_store)) /\
  conclude small_proof [PySet []; PyList []; PyStrList []]
  = (Raise IndexError, [PySet []; PyList []; PyStrList []]).
Proof.
  split.
  - assert (H : holds small_store small_proof [p; p --> q] [p; p --> q]
                  ["(premise)"; "(premise)"]) by (repeat split).
    apply (proj1 (proj2 (proj2 (proj2 (conclude_after_step (RT:=ideal) _ _ _ _ _ H)))) p q).
    reflexivity.
  - assert (H : holds [PySet []; PyList []; PyStrList []] small_proof [] [] [])
      by (repeat split).
    now apply (proj2 (proj2 (proj2 (proj2 (proj2
             (conclude_after_step (RT:=ideal) _ _ _ _ _ H)))))).
Defined.

(** ** Steps stay applicable *)

Section StepFacts.
Context {RT : PyRuntime}.

Lemma first_occurrence_app x L L' i :
  first_occurrence x L i -> first_occurrence x (L ++ L') i.
Proof.
  intros [(y & Hy & Ey) Hlt]. apply lookup_lt_Some in Hy as Hi. split.
  - exists y. split; [now apply lookup_app_l_Some | exact Ey].
  - intros k z Hk Hz. apply (Hlt k z Hk).
    rewrite lookup_app_l in Hz by lia. exact Hz.
Qed.

(** What a successful [modus_ponens] leaves, by the positions it cites. *)
Lemma modus_ponens_Return h pf P L A a b h1 :
  holds h pf P L A -> modus_ponens pf a b h = (Return tt, h1) ->
  list_contains a L = true /\ list_contains (a --> b) L = true /\
  exists i j,
    list_index a L = Some i /\ list_index (a --> b) L = Some j /\
    h1 = add_row pf L A b (MP_application i j) h.
Proof.
  intros H E.
  destruct (list_contains a L) eqn:E1; [destruct (list_contains (a --> b) L) eqn:E2 |].
  - destruct (modus_ponens_ok _ _ _ _ _ _ _ H E1 E2) as (i & j & Hi & Hj & Run).
    rewrite Run in E. injection E as <-. repeat split. eauto.
  - rewrite (modus_ponens_no_implication _ _ _ _ _ _ _ H E1 E2) in E. discriminate E.
  - rewrite (modus_ponens_no_antecedent _ _ _ _ _ _ _ H E1) in E. discriminate E.
Qed.
End StepFacts.

(** X4: a [modus_ponens] call that has succeeded succeeds again after any
    further lines have been appended to the proof, and records the same two
    line numbers. *)
Theorem modus_ponens_stable {RT : PyRuntime} h pf P L A a b h1 h' Lx A' :
  holds h pf P L A ->
  modus_ponens pf a b h = (Return tt, h1) ->
  holds h' pf P (L ++ Lx) A' ->
  exists i j h2,
    holds h1 pf P (L ++ [b]) (A ++ [MP_application i j]) /\
    modus_ponens pf a b h' = (Return tt, h2) /\
    holds h2 pf P ((L ++ Lx) ++ [b]) (A' ++ [MP_application i j]).
Proof.
  intros H E H'.
  destruct (modus_ponens_Return _ _ _ _ _ _ _ _ H E) as (E1 & E2 & i & j & Hi & Hj & ->).
  destruct (modus_ponens_ok _ _ _ _ _ _ _ H'
              (list_contains_app _ _ Lx E1) (list_contains_app _ _ Lx E2))
    as (i' & j' & Hi' & Hj' & Run).
  rewrite (list_index_app _ _ Lx _ Hi) in Hi'. injection Hi' as <-.
  rewrite (list_index_app _ _ Lx _ Hj) in Hj'. injection Hj' as <-.
  exists i, j, (add_row pf (L ++ Lx) A' b (MP_application i j) h').
  split; [now apply add_row_holds | split; [exact Run | now apply add_row_holds]].
Qed.

Lemma modus_ponens_stable_witness :
  exists i j h2,
    holds (snd (modus_ponens (RT:=ideal) small_proof p q small_store)) small_proof
      [p; p --> q] ([p; p --> q] ++ [q]) (["(premise)"; "(premise)"] ++ [MP_application i j]) /\
    modus_ponens (RT:=ideal) small_proof p q
      (snd (axiom_1 small_proof q r small_store)) = (Return tt, h2) /\
    holds h2 small_proof [p; p --> q] (([p; p --> q] ++ [q --> (r --> q)]) ++ [q])
      (["(premise)"; "(premise)"; "(A1)"] ++ [MP_application i j]).
Proof.
  assert (H : holds small_store small_proof [p; p --> q] [p; p --> q]
                ["(premise)"; "(premise)"]) by (repeat split).
  assert (H' : holds (snd (axiom_1 small_proof q r small_store)) small_proof
                 [p; p --> q] ([p; p --> q] ++ [q --> (r --> q)])
                 ["(premise)"; "(premise)"; "(A1)"]) by (repeat split).
  exact (modus_ponens_stable (RT:=ideal) _ _ _ _ _ p q
           (snd (modus_ponens (RT:=ideal) small_proof p q small_store))
           _ _ _ H eq_refl H').
Defined.

(** ** Applications explain their lines *)

Section ExplainFacts.
Context {RT : PyRuntime}.

Lemma explained_app P L L' k line app :
  explained P L k line app -> explained P (L ++ L') k line app.
Proof.
  intros [H | [H | (a & i & j & Happ & Hi & Hj & Fi & Fj)]];
    [now left | right; now left | right; right].
  exists a, i, j. repeat split; auto; now apply first_occurrence_app.
Qed.

Lemma explains_snoc P L A x s :
  explains P L A -> explained P (L ++ [x]) (length L) x s ->
  explains P (L ++ [x]) (A ++ [s]).
Proof.
  intros [Hlen Hrows] Hx. split; [rewrite !length_app; simpl; lia|].
  intros k line app Hl Ha.
  apply lookup_snoc_Some in Hl as [[Hk Hl] | [-> <-]].
  - rewrite lookup_app_l in Ha by lia. now apply explained_app, Hrows.
  - rewrite Hlen, list_lookup_middle in Ha by reflexivity.
    injection Ha as <-. exact Hx.
Qed.

Lemma explains_add_row h pf P L A x s :
  holds h pf P L A -> explains P L A ->
  explained P (L ++ [x]) (length L) x s ->
  exists L' A', holds (add_row pf L A x s h) pf P L' A' /\ explains P L' A'.
Proof.
  intros H Hex Hx. exists (L ++ [x]), (A ++ [s]).
  split; [now apply add_row_holds | now apply explains_snoc].
Qed.

Lemma keeps_ret {X : Type} pf (a : X) : keeps pf (ret a).
Proof. intros h r h' P L A H Hex E. injection E as _ <-. eauto. Qed.

Lemma keeps_raise {X : Type} pf e : keeps pf (raise (A:=X) e).
Proof. intros h r h' P L A H Hex E. injection E as _ <-. eauto. Qed.

Lemma keeps_bind {X Y : Type} pf (m : M X) (k : X -> M Y) :
  keeps pf m -> (forall a, keeps pf (k a)) -> keeps pf (bind m k).
Proof.
  intros Hm Hk h r h' P L A H Hex E.
  apply bind_inv in E as [(a & h1 & E1 & E2) | (e & E1 & _)].
  - destruct (Hm _ _ _ _ _ _ H Hex E1) as (L1 & A1 & H1 & Hex1).
    apply (Hk a _ _ _ _ _ _ H1 Hex1 E2).
  - apply (Hm _ _ _ _ _ _ H Hex E1).
Qed.

Lemma keeps_get_set pf l : keeps pf (get_set l).
Proof. intros h r h' P L A H Hex E. apply get_set_inv in E as [-> _]. eauto. Qed.

Lemma keeps_get_list pf l : keeps pf (get_list l).
Proof. intros h r h' P L A H Hex E. apply get_list_inv in E as [-> _]. eauto. Qed.

Lemma keeps_for_each {X : Type} pf (xs : list X) (body : X -> M unit) :
  (forall x, In x xs -> keeps pf (body x)) -> keeps pf (for_each xs body).
Proof.
  induction xs as [|x xs IH]; simpl; intros Hb.
  - apply keeps_ret.
  - apply keeps_bind; [apply Hb; now left |].
    intros _. apply IH. intros y Hy. apply Hb. now right.
Qed.

Lemma keeps_axiom_1 pf a b : keeps pf (axiom_1 pf a b).
Proof.
  intros h r h' P L A H Hex E. rewrite (axiom_1_run _ _ _ _ _ _ _ H) in E.
  injection E as _ <-. apply explains_add_row; auto.
  right; left; left. split; eauto.
Qed.

Lemma keeps_axiom_2 pf a b c : keeps pf (axiom_2 pf a b c).
Proof.
  intros h r h' P L A H Hex E. rewrite (axiom_2_run _ _ _ _ _ _ _ _ H) in E.
  injection E as _ <-. apply explains_add_row; auto.
  right; left; right; left. split; eauto.
Qed.

Lemma keeps_axiom_3 pf a : keeps pf (axiom_3 pf a).
Proof.
  intros h r h' P L A H Hex E. rewrite (axiom_3_run _ _ _ _ _ _ H) in E.
  injection E as _ <-. apply explains_add_row; auto.
  right; left; right; right. split; eauto.
Qed.

Lemma keeps_modus_ponens pf a b : keeps pf (modus_ponens pf a b).
Proof.
  intros h r h' P L A H Hex E.
  destruct (list_contains a L) eqn:E1; [destruct (list_contains (a --> b) L) eqn:E2 |].
  - destruct (modus_ponens_ok _ _ _ _ _ _ _ H E1 E2) as (i & j & Hi & Hj & Run).
    rewrite Run in E. injection E as _ <-. apply explains_add_row; auto.
    right; right. exists a, i, j.
    apply list_index_first in Hi as Fi. apply list_index_first in Hj as Fj.
    destruct Fi as [(y & Hy & Ey) Fi]. destruct Fj as [(z & Hz & Ez) Fj].
    apply lookup_lt_Some in Hy as Hilt. apply lookup_lt_Some in Hz as Hjlt.
    repeat split; auto.
    + exists y. split; [now apply lookup_app_l_Some | exact Ey].
    + intros k w Hk Hw. apply (Fi k w Hk). rewrite lookup_app_l in Hw by lia. exact Hw.
    + exists z. split; [now apply lookup_app_l_Some | exact Ez].
    + intros k w Hk Hw. apply (Fj k w Hk). rewrite lookup_app_l in Hw by lia. exact Hw.
  - rewrite (modus_ponens_no_implication _ _ _ _ _ _ _ H E1 E2) in E.
    injection E as _ <-. eauto.
  - rewrite (modus_ponens_no_antecedent _ _ _ _ _ _ _ H E1) in E.
    injection E as _ <-. eauto.
Qed.

Lemma keeps_append_row {X : Type} pf x s (k : M X) :
  axiom_row x s -> keeps pf k ->
  keeps pf (list_append (lines pf) x ;;; strs_append (applications pf) s ;;; k).
Proof.
  intros Hx Hk h r h' P L A H Hex E.
  pose proof (append_row_run _ _ _ _ _ x s H) as Run.
  assert (E' : k (add_row pf L A x s h) = (r, h')).
  { revert E Run. unfold bind.
    destruct (list_append (lines pf) x h) as [[[] | e] h1]; [|discriminate].
    destruct (strs_append (applications pf) s h1) as [[[] | e] h2]; [|discriminate].
    now intros E [= ->]. }
  assert (Hx' : explained P (L ++ [x]) (length L) x s) by (right; now left).
  destruct (explains_add_row _ _ _ _ _ _ _ H Hex Hx') as (L1 & A1 & H1 & Hex1).
  apply (Hk _ _ _ _ _ _ H1 Hex1 E').
Qed.
End ExplainFacts.

Ltac keeps_steps :=
  repeat first [ apply keeps_axiom_1 | apply keeps_axiom_2
               | apply keeps_axiom_3 | apply keeps_modus_ponens
               | apply keeps_bind; [|intros _] ].

Section ExplainTransformer.
Context {RT : PyRuntime}.

Lemma keeps_deduce_line proof new_proof premise line application :
  (String.prefix "(A" application = true -> axiom_row line application) ->
  keeps new_proof (deduce_line proof new_proof premise (line, application)).
Proof.
  intros Hax. unfold deduce_line.
  destruct (__eq__ line premise); [keeps_steps|].
  apply keeps_bind; [apply keeps_get_set | intros s].
  destruct (set_contains line s); [keeps_steps|].
  destruct (String.prefix "(A" application).
  { apply keeps_append_row; [now apply Hax | keeps_steps]. }
  apply keeps_bind; [apply keeps_get_list | intros ls].
  destruct (find_pair ls line) as [[tj tk] |]; [keeps_steps|].
  apply keeps_raise.
Qed.

(** An application that starts with ["(A"] and explains its line names an
    axiom schema. *)
Lemma explained_axiom P L k line app :
  explained P L k line app -> String.prefix "(A" app = true -> axiom_row line app.
Proof.
  intros [[-> _] | [H | (a & i & j & -> & _)]] Hp.
  - discriminate Hp.
  - exact H.
  - discriminate Hp.
Qed.

Lemma explains_premises P :
  explains P P (map (fun _ => "(premise)") P).
Proof.
  split; [now rewrite length_map|].
  intros k line app Hl Ha. left.
  rewrite list_lookup_fmap, Hl in Ha. injection Ha as <-.
  split; [reflexivity|]. apply list_contains_In.
  apply list_elem_of_In. eapply list_elem_of_lookup_2. exact Hl.
Qed.
End ExplainTransformer.

Lemma In_combine_lookup {X Y : Type} (l : list X) (l' : list Y) x y :
  In (x, y) (combine l l') -> exists k, l !! k = Some x /\ l' !! k = Some y.
Proof.
  revert l'. induction l as [|a l IH]; intros [|b l']; simpl; try contradiction.
  intros [[= -> ->] | Hin].
  - now exists 0.
  - destruct (IH _ Hin) as (k & Hx & Hy). now exists (S k).
Qed.

(** X5: in a proof built by the constructors, every application explains
    its line: a ["(premise)"] line is a premise, an ["(A1)"], ["(A2)"] or
    ["(A3)"] line is an instance of that schema, and an ["(MP i, j)"] line [t]
    comes after lines [i] and [j], which are the first lines equal to some
    [a] and to [(a > t)]; lines and applications have the same length. *)
Theorem built_explained {RT : PyRuntime} (U : formula -> Prop) h pf :
  built U h pf -> exists P L A, holds h pf P L A /\ explains P L A.
Proof.
  intros B. induction B as
    [ h s pf h' E HP
    | h pf a b r h' B IH Ux E | h pf a b c r h' B IH Ux E | h pf a r h' B IH Ux E
    | h pf a b r h' B IH Ua Ub E ].
  - apply Proof__init__inv in E as (P & Hs & -> & ->).
    exists P, P, (map (fun _ => "(premise)") P). split; [|apply explains_premises].
    unfold holds. simpl. repeat split.
    + now apply lookup_app_l_Some.
    + now apply list_lookup_middle.
    + rewrite (lookup_app_r h) by lia.
      now replace (S (length h) - length h) with 1 by lia.
  - destruct IH as (P & L & A & H & Hex).
    destruct (keeps_axiom_1 _ _ _ _ _ _ _ _ _ H Hex E) as (L' & A' & H' & Hex'). eauto.
  - destruct IH as (P & L & A & H & Hex).
    destruct (keeps_axiom_2 _ _ _ _ _ _ _ _ _ _ H Hex E) as (L' & A' & H' & Hex'). eauto.
  - destruct IH as (P & L & A & H & Hex).
    destruct (keeps_axiom_3 _ _ _ _ _ _ _ _ H Hex E) as (L' & A' & H' & Hex'). eauto.
  - destruct IH as (P & L & A & H & Hex).
    destruct (keeps_modus_ponens _ _ _ _ _ _ _ _ _ H Hex E) as (L' & A' & H' & Hex'). eauto.
Qed.

Lemma built_explained_witness :
  exists P L A,
    holds (snd (modus_ponens (RT:=ideal) small_proof p q small_store)) small_proof P L A /\
    explains (RT:=ideal) P L A.
Proof.
  apply (built_explained (RT:=ideal) (fun _ => True)).
  apply (built_modus_ponens _ small_store small_proof p q (Return tt)); trivial.
  now apply (built_init _ [PySet [p; p --> q]] 0).
Defined.

(** X6: when the applications of the input proof explain its lines, those
    of the proof the transformer returns explain its lines too: the output
    can be checked line by line, each modus ponens against two earlier
    lines. *)
Theorem deduction_output_explained {RT : PyRuntime} h proof P L A premise new_proof h' :
  holds h proof P L A -> explains P L A ->
  use_deduction_theorem proof premise h = (Return new_proof, h') ->
  exists Pn NL NA, holds h' new_proof Pn NL NA /\ explains Pn NL NA.
Proof.
  intros H Hex E. destruct (set_contains premise P) eqn:Hp.
  - rewrite (use_deduction_theorem_run _ _ _ _ _ _ H Hp) in E.
    apply bind_inv in E as [([] & h1 & E1 & E2) | (e & _ & [=])].
    injection E2 as <- <-.
    assert (K : keeps (new_proof_of h)
                  (for_each (combine L A) (deduce_line proof (new_proof_of h) premise))).
    { apply keeps_for_each. intros [line app] Hin. apply keeps_deduce_line.
      destruct (In_combine_lookup _ _ _ _ Hin) as (k & Hl & Ha).
      apply (explained_axiom P L k). now apply (proj2 Hex). }
    destruct (K _ _ _ _ _ _ (new_store_holds h P premise) (explains_premises _) E1)
      as (NL & NA & Hn & Hexn).
    eauto.
  - destruct H as (H1 & _).
    rewrite (use_deduction_theorem_missing h proof P premise H1 Hp) in E.
    discriminate E.
Qed.

Lemma deduction_output_explained_witness :
  exists Pn NL NA,
    holds (snd (use_deduction_theorem (RT:=ideal) small_proof p
                  [PySet [p]; PyList [p]; PyStrList ["(premise)"]]))
      (new_proof_of [PySet [p]; PyList [p]; PyStrList ["(premise)"]]) Pn NL NA /\
    explains (RT:=ideal) Pn NL NA.
Proof.
  assert (H : holds [PySet [p]; PyList [p]; PyStrList ["(premise)"]]
                small_proof [p] [p] ["(premise)"]) by (repeat split).
  apply (deduction_output_explained (RT:=ideal) _ small_proof [p] [p] ["(premise)"] p
           _ _ H (explains_premises [p])).
  reflexivity.
Defined.

(** ** The conclusion of the new proof *)

Section LastFacts.
Context {RT : PyRuntime}.

Lemma returns_last_modus_ponens pf a b : returns_last pf b (modus_ponens pf a b).
Proof.
  intros h [] h' (P & L & A & H) E.
  destruct (modus_ponens_Return _ _ _ _ _ _ _ _ H E) as (_ & _ & i & j & _ & _ & ->).
  exists P, L, (A ++ [MP_application i j]). now apply add_row_holds.
Qed.

Lemma returns_last_bind {X Y : Type} pf b (m : M X) (k : X -> M Y) :
  only_appends pf m -> (forall a, returns_last pf b (k a)) ->
  returns_last pf b (bind m k).
Proof.
  intros Hm Hk h y h' W E.
  apply bind_inv in E as [(a & h1 & E1 & E2) | (e & _ & [=])].
  apply (Hk a h1 y h'); [|exact E2].
  apply (grows_holds _ _ _ (Hm _ _ _ W E1) W).
Qed.

Lemma returns_last_append_row {X : Type} pf b x s (k : M X) :
  returns_last pf b k ->
  returns_last pf b
    (list_append (lines pf) x ;;; strs_append (applications pf) s ;;; k).
Proof.
  intros Hk h y h' (P & L & A & H) E.
  pose proof (append_row_run _ _ _ _ _ x s H) as Run.
  assert (E' : k (add_row pf L A x s h) = (Return y, h')).
  { revert E Run. unfold bind.
    destruct (list_append (lines pf) x h) as [[[] | e] h1]; [|discriminate].
    destruct (strs_append (applications pf) s h1) as [[[] | e] h2]; [|discriminate].
    now intros E [= ->]. }
  apply (Hk _ _ _ (ex_intro _ P (ex_intro _ _ (ex_intro _ _
           (add_row_holds _ _ _ _ _ x s H)))) E').
Qed.

Lemma returns_last_raise {X : Type} pf b e : returns_last pf b (raise (A:=X) e).
Proof. intros h a h' _ [=]. Qed.

Lemma only_appends_axiom_1 pf a b : only_appends pf (axiom_1 pf a b).
Proof. apply (extends_only_appends (fun _ => True)), extends_axiom_1. Qed.

Lemma only_appends_axiom_2 pf a b c : only_appends pf (axiom_2 pf a b c).
Proof. apply (extends_only_appends (fun _ => True)), extends_axiom_2. Qed.

Lemma only_appends_modus_ponens pf a b : only_appends pf (modus_ponens pf a b).
Proof. now apply (extends_only_appends (fun _ => True)), extends_modus_ponens. Qed.

Lemma only_appends_get_set pf l : only_appends pf (get_set l).
Proof. now apply (extends_only_appends (fun _ => True)), extends_get_set. Qed.

Lemma only_appends_get_list pf l : only_appends pf (get_list l).
Proof. now apply (extends_only_appends (fun _ => True)), extends_get_list. Qed.
End LastFacts.

Ltac returns_last_steps :=
  repeat first [ apply returns_last_modus_ponens
               | apply returns_last_bind;
                 [ first [ apply only_appends_axiom_1 | apply only_appends_axiom_2
                         | apply only_appends_modus_ponens ]
                 | intros _ ] ].

Section LastTransformer.
Context {RT : PyRuntime}.

Lemma returns_last_deduce_line proof new_proof premise line application :
  returns_last new_proof (implied premise line)
    (deduce_line proof new_proof premise (line, application)).
Proof.
  unfold deduce_line, implied.
  destruct (__eq__ line premise); [returns_last_steps|].
  apply returns_last_bind; [apply only_appends_get_set | intros s].
  destruct (set_contains line s); [returns_last_steps|].
  destruct (String.prefix "(A" application).
  { apply returns_last_append_row. returns_last_steps. }
  apply returns_last_bind; [apply only_appends_get_list | intros ls].
  destruct (find_pair ls line) as [[tj tk] |]; [returns_last_steps|].
  apply returns_last_raise.
Qed.

Lemma for_each_snoc_inv {X : Type} (pre : list X) x (body : X -> M unit) h h' :
  for_each (pre ++ [x]) body h = (Return tt, h') ->
  exists h1, for_each pre body h = (Return tt, h1) /\ body x h1 = (Return tt, h').
Proof.
  revert h. induction pre as [|y pre IH]; simpl; intros h E.
  - apply bind_inv in E as [([] & h1 & E1 & E2) | (e & _ & [=])].
    injection E2 as <-. now exists h.
  - apply bind_inv in E as [([] & h1 & E1 & E2) | (e & _ & [=])].
    destruct (IH _ E2) as (h2 & E3 & E4). exists h2.
    split; [now rewrite (bind_Return _ _ _ _ _ E1) | exact E4].
Qed.

Lemma combine_snoc {X Y : Type} (l : list X) x (k : list Y) :
  length (l ++ [x]) = length k ->
  exists k0 y, k = k0 ++ [y] /\ combine (l ++ [x]) k = combine l k0 ++ [(x, y)].
Proof.
  intros Hlen. rewrite length_app in Hlen. simpl in Hlen.
  destruct (exists_last (l:=k)) as (k0 & y & ->); [intros ->; simpl in Hlen; lia|].
  exists k0, y. split; [reflexivity|].
  rewrite length_app in Hlen. simpl in Hlen.
  apply (combine_app_aligned l [x] k0 [y]). lia.
Qed.
End LastTransformer.

(** X7: whenever the transformer returns, the conclusion of the new proof
    is [(premise > q)] for the conclusion [q] of the input proof, or
    [(premise > premise)] when [q == premise]. *)
Theorem deduction_conclusion {RT : PyRuntime} h proof P L A premise new_proof h' L0 c :
  holds h proof P L A -> length L = length A -> L = L0 ++ [c] ->
  use_deduction_theorem proof premise h = (Return new_proof, h') ->
  conclude proof h = (Return c, h) /\
  conclude new_proof h'
  = (Return (premise --> (if __eq__ c premise then premise else c)), h').
Proof.
  intros H Hlen -> E. split.
  { rewrite (conclude_run _ _ _ _ _ H). now rewrite last_snoc. }
  destruct (set_contains premise P) eqn:Hp.
  - rewrite (use_deduction_theorem_run _ _ _ _ _ _ H Hp) in E.
    apply bind_inv in E as [([] & h1 & E1 & E2) | (e & _ & [=])].
    injection E2 as <- <-.
    destruct (combine_snoc _ _ _ Hlen) as (A0 & s & -> & Hc). rewrite Hc in E1.
    apply for_each_snoc_inv in E1 as (h2 & E2 & E3).
    assert (W : exists Pn Ln An,
               holds (new_store_of h P premise) (new_proof_of h) Pn Ln An)
      by (do 3 eexists; apply new_store_holds).
    assert (G : grows (new_proof_of h) (new_store_of h P premise) h2).
    { refine (proj1 (extends_for_each (fun _ => True) _ _ _ _ _ _ _ W E2)).
      intros x _. now apply extends_deduce_line. }
    destruct (returns_last_deduce_line _ _ _ _ _ _ _ _ (grows_holds _ _ _ G W) E3)
      as (Pn & NL & NA & Hn).
    rewrite (conclude_run _ _ _ _ _ Hn). now rewrite last_snoc.
  - destruct H as (H1 & _).
    rewrite (use_deduction_theorem_missing h proof P premise H1 Hp) in E.
    discriminate E.
Qed.

Lemma deduction_conclusion_witness :
  conclude (new_proof_of (snd (modus_ponens (RT:=ideal) small_proof p q small_store)))
    (snd (use_deduction_theorem (RT:=ideal) small_proof p
            (snd (modus_ponens (RT:=ideal) small_proof p q small_store))))
  = (Return (p --> q),
     snd (use_deduction_theorem (RT:=ideal) small_proof p
            (snd (modus_ponens (RT:=ideal) small_proof p q small_store)))).
Proof.
  assert (H : holds (snd (modus_ponens (RT:=ideal) small_proof p q small_store))
                small_proof [p; p --> q] [p; p --> q; q]
                ["(premise)"; "(premise)"; "(MP 1, 2)"]) by (repeat split).
  apply (deduction_conclusion (RT:=ideal) _ _ _ _ _ p _ _ [p; p --> q] q H eq_refl eq_refl).
  reflexivity.
Defined.

(** ** The transformer returns *)

Section ReachFacts.
Context {RT : PyRuntime}.

Lemma reaches_step np Pn NL NA1 target x (m k : M unit) h h1 :
  m h = (Return tt, h1) -> holds h1 np Pn (NL ++ [x]) NA1 ->
  reaches np Pn (NL ++ [x]) target k h1 ->
  reaches np Pn NL target (m ;;; k) h.
Proof.
  intros E _ (h' & NLx & NA' & Ek & H' & Hl).
  exists h', (x :: NLx), NA'. split; [|split].
  - now rewrite (bind_Return _ _ _ _ _ E).
  - now rewrite <- app_assoc in H'.
  - now rewrite last_cons, Hl.
Qed.

Lemma reaches_modus_ponens h np Pn NL NA a b :
  holds h np Pn NL NA ->
  list_contains a NL = true -> list_contains (a --> b) NL = true ->
  reaches np Pn NL b (modus_ponens np a b) h.
Proof.
  intros H E1 E2.
  destruct (modus_ponens_ok _ _ _ _ _ _ _ H E1 E2) as (i & j & _ & _ & Run).
  eexists _, [b], _. split; [exact Run | split; [now apply add_row_holds | reflexivity]].
Qed.

Lemma reaches_axiom_1 h np Pn NL NA a b target (k : M unit) :
  holds h np Pn NL NA ->
  (forall h1, holds h1 np Pn (NL ++ [a --> (b --> a)]) (NA ++ ["(A1)"]) ->
     reaches np Pn (NL ++ [a --> (b --> a)]) target k h1) ->
  reaches np Pn NL target (axiom_1 np a b ;;; k) h.
Proof.
  intros H Hk.
  pose proof (add_row_holds _ _ _ _ _ (a --> (b --> a)) "(A1)" H) as H1.
  apply (reaches_step _ _ _ _ _ _ _ _ _ _ (axiom_1_run _ _ _ _ _ _ _ H) H1), Hk, H1.
Qed.

Lemma reaches_axiom_2 h np Pn NL NA a b c target (k : M unit) :
  holds h np Pn NL NA ->
  (forall h1,
     holds h1 np Pn (NL ++ [(a --> (b --> c)) --> ((a --> b) --> (a --> c))])
       (NA ++ ["(A2)"]) ->
     reaches np Pn (NL ++ [(a --> (b --> c)) --> ((a --> b) --> (a --> c))]) target k h1) ->
  reaches np Pn NL target (axiom_2 np a b c ;;; k) h.
Proof.
  intros H Hk.
  pose proof (add_row_holds _ _ _ _ _
                ((a --> (b --> c)) --> ((a --> b) --> (a --> c))) "(A2)" H) as H1.
  apply (reaches_step _ _ _ _ _ _ _ _ _ _ (axiom_2_run _ _ _ _ _ _ _ _ H) H1), Hk, H1.
Qed.

Lemma reaches_append_row h np Pn NL NA x s target (k : M unit) :
  holds h np Pn NL NA ->
  (forall h1, holds h1 np Pn (NL ++ [x]) (NA ++ [s]) ->
     reaches np Pn (NL ++ [x]) target k h1) ->
  reaches np Pn NL target
    (list_append (lines np) x ;;; strs_append (applications np) s ;;; k) h.
Proof.
  intros H Hk.
  pose proof (add_row_holds _ _ _ _ _ x s H) as H1.
  destruct (Hk _ H1) as (h' & NLx & NA' & Ek & H' & Hl).
  exists h', (x :: NLx), NA'. split; [|split].
  - pose proof (append_row_run _ _ _ _ _ x s H) as Run. revert Run. unfold bind.
    destruct (list_append (lines np) x h) as [[[] | e] h1]; [|discriminate].
    destruct (strs_append (applications np) s h1) as [[[] | e] h2]; [|discriminate].
    now intros [= ->].
  - now rewrite <- app_assoc in H'.
  - now rewrite last_cons, Hl.
Qed.

Lemma reaches_then_modus_ponens h np Pn NL NA a b target (k : M unit) :
  holds h np Pn NL NA ->
  list_contains a NL = true -> list_contains (a --> b) NL = true ->
  (forall h1 NA1, holds h1 np Pn (NL ++ [b]) NA1 ->
     reaches np Pn (NL ++ [b]) target k h1) ->
  reaches np Pn NL target (modus_ponens np a b ;;; k) h.
Proof.
  intros H E1 E2 Hk.
  destruct (modus_ponens_ok _ _ _ _ _ _ _ H E1 E2) as (i & j & _ & _ & Run).
  pose proof (add_row_holds _ _ _ _ _ b (MP_application i j) H) as H1.
  apply (reaches_step _ _ _ _ _ _ _ _ _ _ Run H1), (Hk _ _ H1).
Qed.

Lemma reaches_read {X : Type} np Pn NL target (m : M X) (k : X -> M unit) h a :
  m h = (Return a, h) -> reaches np Pn NL target (k a) h ->
  reaches np Pn NL target (bind m k) h.
Proof.
  intros E (h' & NLx & NA' & Ek & H' & Hl). exists h', NLx, NA'.
  split; [now rewrite (bind_Return _ _ _ _ _ E) | now split].
Qed.

Lemma list_contains_named x y L :
  In y L -> name y = name x -> list_contains x L = true.
Proof.
  intros Hin Hn. apply existsb_exists. exists y. split; [exact Hin|].
  now apply eq_formula_name.
Qed.

Lemma last_In {X : Type} (l : list X) x : last l = Some x -> In x l.
Proof.
  intros H. apply list_elem_of_In. now apply last_Some_elem_of.
Qed.
End ReachFacts.

(** A line that is in the list, by position. *)
Ltac contains_here :=
  apply list_contains_In; rewrite !in_app_iff; simpl; tauto.

Section ReachTransformer.
Context {RT : PyRuntime}.

Lemma deduce_line_reaches h proof np P L Pn NL NA premise line app :
  holds h np Pn NL NA ->
  h !! premises proof = Some (PySet P) -> h !! lines proof = Some (PyList L) ->
  (__eq__ line premise = false -> set_contains line P = true ->
     list_contains line NL = true) ->
  (__eq__ line premise = false -> set_contains line P = false ->
   String.prefix "(A" app = false ->
     exists tj tk,
       find_pair L line = Some (tj, tk) /\
       list_contains (premise --> tk) NL = true /\
       list_contains (premise --> tj) NL = true /\
       name tk = name (tj --> line)) ->
  reaches np Pn NL (implied premise line) (deduce_line proof np premise (line, app)) h.
Proof.
  intros H H1 H2 Hprem Hscan. unfold deduce_line, implied.
  destruct (__eq__ line premise) eqn:E1.
  { apply (reaches_axiom_1 _ _ _ _ NA); [exact H | intros h1 Hh1].
    apply (reaches_axiom_2 _ _ _ _ _ _ _ _ _ _ Hh1). intros h2 Hh2.
    apply (reaches_then_modus_ponens _ _ _ _ _ _ _ _ _ Hh2); [contains_here.. |].
    intros h3 NA3 Hh3.
    apply (reaches_axiom_1 _ _ _ _ _ _ _ _ _ Hh3). intros h4 Hh4.
    apply (reaches_modus_ponens _ _ _ _ _ _ _ Hh4); contains_here. }
  apply (reaches_read _ _ _ _ _ _ _ _ (get_set_run _ _ _ H1)).
  destruct (set_contains line P) eqn:E2.
  { apply (reaches_axiom_1 _ _ _ _ NA); [exact H | intros h1 Hh1].
    apply (reaches_modus_ponens _ _ _ _ _ _ _ Hh1); [|contains_here].
    apply list_contains_app. now apply Hprem. }
  destruct (String.prefix "(A" app) eqn:E3.
  { apply (reaches_append_row _ _ _ _ NA); [exact H | intros h1 Hh1].
    apply (reaches_axiom_1 _ _ _ _ _ _ _ _ _ Hh1). intros h2 Hh2.
    apply (reaches_modus_ponens _ _ _ _ _ _ _ Hh2); contains_here. }
  apply (reaches_read _ _ _ _ _ _ _ _ (get_list_run _ _ _ H2)).
  destruct (Hscan eq_refl eq_refl eq_refl) as (tj & tk & -> & Ck & Cj & Hn).
  apply (reaches_axiom_2 _ _ _ _ NA); [exact H | intros h1 Hh1].
  apply (reaches_then_modus_ponens _ _ _ _ _ _ _ _ _ Hh1).
  - now apply list_contains_app.
  - apply (list_contains_named _
             ((premise --> (tj --> line)) --> ((premise --> tj) --> (premise --> line)))).
    + rewrite in_app_iff. simpl. tauto.
    + simpl. simpl in Hn. now rewrite Hn.
  - intros h2 NA2 Hh2.
    apply (reaches_modus_ponens _ _ _ _ _ _ _ Hh2); [|contains_here].
    now apply list_contains_app, list_contains_app.
Qed.
End ReachTransformer.

Section ReachLoop.
Context {RT : PyRuntime}.

Lemma contains_implied premise x NL :
  (__eq__ x premise = true -> name x = name premise) ->
  list_contains (implied premise x) NL = true ->
  list_contains (premise --> x) NL = true.
Proof.
  unfold implied. destruct (__eq__ x premise); [|auto].
  intros Hn H. rewrite <- H. apply list_contains_eq, eq_formula_name.
  simpl. now rewrite (Hn eq_refl).
Qed.

Lemma loop_reaches proof np P L A Pn premise :
  premises proof <> lines np -> premises proof <> applications np ->
  lines proof <> lines np -> lines proof <> applications np ->
  orderly P L A premise ->
  (forall y, __eq__ y premise = false -> set_contains y P = true ->
     set_contains y Pn = true) ->
  forall Lrest Arest L1 A1,
    L = L1 ++ Lrest -> A = A1 ++ Arest ->
    length L1 = length A1 -> length Lrest = length Arest ->
    forall h NL NA,
      holds h np Pn NL NA ->
      h !! premises proof = Some (PySet P) -> h !! lines proof = Some (PyList L) ->
      (forall y, set_contains y Pn = true -> list_contains y NL = true) ->
      (forall x, In x L1 -> list_contains (implied premise x) NL = true) ->
      exists h' NL' NA',
        for_each (combine Lrest Arest) (deduce_line proof np premise) h = (Return tt, h') /\
        holds h' np Pn NL' NA' /\
        (forall x, In x L -> list_contains (implied premise x) NL' = true).
Proof.
  intros D1 D2 D3 D4 Hord HPn.
  induction Lrest as [|line Lrest IH];
    intros [|app Arest] L1 A1 HL HA Hlen1 Hlen2 h NL NA H H1 H2 InvP Inv;
    try discriminate Hlen2.
  - exists h, NL, NA. split; [reflexivity | split; [exact H|]].
    intros x Hx. apply Inv. now rewrite HL, app_nil_r in Hx.
  - assert (Hl : L !! length L1 = Some line) by (rewrite HL; now apply list_lookup_middle).
    assert (Ha : A !! length L1 = Some app)
      by (rewrite HA, Hlen1; now apply list_lookup_middle).
    pose proof (Hord _ _ _ Hl Ha) as Hready.
    assert (Htake : take (length L1) L = L1) by (rewrite HL; apply take_app_length).
    rewrite Htake in Hready. unfold scan_ready in Hready.
    cbn [fst snd] in Hready.
    assert (R : reaches np Pn NL (implied premise line)
                  (deduce_line proof np premise (line, app)) h).
    { apply (deduce_line_reaches _ _ _ P L _ _ NA); auto.
      intros E1 E2 E3.
      destruct Hready as [Hr | [Hr | [Hr | (tj & tk & Hf & Hj & Hk & Hn & Nj & Nk)]]];
        try congruence.
      exists tj, tk. repeat split; auto.
      - now apply contains_implied, Inv.
      - now apply contains_implied, Inv. }
    destruct R as (h1 & NLx & NA1 & E & Hh1 & Hlast).
    assert (G : grows np h h1).
    { refine (proj1 (extends_deduce_line (fun _ => True) proof np premise (line, app)
                       I (fun _ => I) (fun _ => I) I h _ h1 _ E)).
      eauto. }
    destruct G as (_ & F & _).
    destruct (IH Arest (L1 ++ [line]) (A1 ++ [app])) with (h := h1) (NL := NL ++ NLx) (NA := NA1)
      as (h' & NL' & NA' & E' & H' & Hall).
    + now rewrite <- app_assoc.
    + now rewrite <- app_assoc.
    + rewrite !length_app. simpl. lia.
    + simpl in Hlen2. lia.
    + exact Hh1.
    + now rewrite F.
    + now rewrite F.
    + intros y Hy. now apply list_contains_app, InvP.
    + intros x Hx. apply in_app_or in Hx as [Hx | [<- | []]].
      * now apply list_contains_app, Inv.
      * apply list_contains_In. apply in_or_app. right. now apply last_In.
    + exists h', NL', NA'. split; [|now split].
      simpl. now rewrite (bind_Return _ _ _ _ _ E).
Qed.

(** The transformer returns on an orderly proof, with [(premise > x)] among
    the new lines for every input line [x]. *)
Lemma use_deduction_theorem_returns h proof P L A premise :
  holds h proof P L A -> length L = length A ->
  set_contains premise P = true -> orderly P L A premise ->
  exists h' NL NA,
    use_deduction_theorem proof premise h = (Return (new_proof_of h), h') /\
    holds h' (new_proof_of h) (set_difference P (set_display [premise])) NL NA /\
    (forall x, In x L -> list_contains (implied premise x) NL = true).
Proof.
  intros H Hlen Hp Hord.
  rewrite (use_deduction_theorem_run _ _ _ _ _ _ H Hp).
  destruct H as (H1 & H2 & H3).
  apply lookup_lt_Some in H1 as Hlt1. apply lookup_lt_Some in H2 as Hlt2.
  destruct (loop_reaches proof (new_proof_of h) P L A
              (set_difference P (set_display [premise])) premise)
    with (Lrest := L) (Arest := A) (L1 := @nil formula) (A1 := @nil string)
         (h := new_store_of h P premise)
         (NL := set_difference P (set_display [premise]))
         (NA := map (fun _ : formula => "(premise)") (set_difference P (set_display [premise])))
    as (h' & NL' & NA' & E & H' & Hall);
    simpl; try lia; auto.
  - intros y Ey Hy. rewrite set_difference_contains, Hy. simpl.
    unfold set_display. rewrite (set_contains_perm _ _ _ (set_order_perm _)).
    simpl. now rewrite orb_false_r, eq_formula_sym, Ey.
  - apply new_store_holds.
  - now rewrite new_store_old.
  - now rewrite new_store_old.
  - exists h', NL', NA'. split; [|now split].
    now rewrite (bind_Return _ _ _ _ _ E).
Qed.
End ReachLoop.

Lemma script_orderly :
  orderly (RT:=ideal) [p; q; p --> (q --> false_)] script_lines script_applications
    (p --> (q --> false_)).
Proof.
  intros k line app Hl Ha.
  destruct k as [|[|[|[|[|k]]]]]; simpl in Hl, Ha; try discriminate Hl;
    injection Hl as <-; injection Ha as <-.
  - right; left; reflexivity.
  - right; left; reflexivity.
  - left; reflexivity.
  - right; right; right. exists p, (p --> (q --> false_)).
    repeat split; simpl; try tauto; discriminate.
  - right; right; right. exists q, (q --> false_).
    repeat split; simpl; try tauto; discriminate.
Qed.

(** X8: the Deduction Theorem, where the scan finds earlier lines.  On a
    proof object whose premises include [premise], when every line that
    reaches case 4 has its scan pair among the lines before it (and the
    equalities by hash used there are equalities of names), the transformer
    returns; the new proof has the premises other than [premise], and for
    every line [x] of the input it has a line equal to [(premise > x)]
    ([(premise > premise)] when [x == premise]). *)
Theorem deduction_theorem {RT : PyRuntime} h proof P L A premise :
  holds h proof P L A -> length L = length A ->
  set_contains premise P = true -> orderly P L A premise ->
  exists new_proof h' NL NA,
    use_deduction_theorem proof premise h = (Return new_proof, h') /\
    holds h' new_proof (set_difference P (set_display [premise])) NL NA /\
    (forall x, In x L ->
       list_contains (premise --> (if __eq__ x premise then premise else x)) NL = true).
Proof.
  intros H Hlen Hp Hord.
  destruct (use_deduction_theorem_returns _ _ _ _ _ _ H Hlen Hp Hord)
    as (h' & NL & NA & E & Hn & Hall).
  exists (new_proof_of h), h', NL, NA. auto.
Qed.

Lemma deduction_theorem_witness :
  exists new_proof h' NL NA,
    use_deduction_theorem (RT:=ideal) small_proof (p --> (q --> false_)) script_store
    = (Return new_proof, h') /\
    holds h' new_proof
      (set_difference (RT:=ideal) [p; q; p --> (q --> false_)]
         (set_display (RT:=ideal) [p --> (q --> false_)])) NL NA /\
    (forall x, In x script_lines ->
       list_contains (RT:=ideal)
         ((p --> (q --> false_)) -->
          (if __eq__ (RT:=ideal) x (p --> (q --> false_))
           then p --> (q --> false_) else x)) NL = true).
Proof.
  apply (deduction_theorem (RT:=ideal) script_store small_proof
           [p; q; p --> (q --> false_)] script_lines script_applications).
  - repeat split.
  - reflexivity.
  - reflexivity.
  - exact script_orderly.
Defined.

(** X9: on a proof whose lines are all premises or axiom lines, the
    transformer always returns, whatever the hash; the new proof has the
    premises other than [premise], and for every line [x] of the input it
    has a line equal to [(premise > x)] when [x != premise], and a line
    equal to [(premise > premise)] when [x == premise]. *)
Theorem deduction_without_modus_ponens {RT : PyRuntime} h proof P L A premise :
  holds h proof P L A -> length L = length A ->
  set_contains premise P = true ->
  (forall k line app, L !! k = Some line -> A !! k = Some app ->
     set_contains line P = true \/ String.prefix "(A" app = true) ->
  exists new_proof h' NL NA,
    use_deduction_theorem proof premise h = (Return new_proof, h') /\
    holds h' new_proof (set_difference P (set_display [premise])) NL NA /\
    (forall x, In x L ->
       list_contains (premise --> (if __eq__ x premise then premise else x)) NL = true).
Proof.
  intros H Hlen Hp Hrows.
  assert (Hord : orderly P L A premise).
  { intros k line app Hl Ha. destruct (Hrows _ _ _ Hl Ha) as [Hr | Hr];
      [right; now left | right; right; now left]. }
  destruct (use_deduction_theorem_returns _ _ _ _ _ _ H Hlen Hp Hord)
    as (h' & NL & NA & E & Hn & Hall).
  exists (new_proof_of h), h', NL, NA. auto.
Qed.

Lemma deduction_without_modus_ponens_witness :
  exists new_proof h' NL NA,
    use_deduction_theorem (RT:=ideal) small_proof p
      (snd (axiom_1 small_proof q r small_store))
    = (Return new_proof, h') /\
    holds h' new_proof
      (set_difference (RT:=ideal) [p; p --> q] (set_display (RT:=ideal) [p])) NL NA /\
    (forall x, In x [p; p --> q; q --> (r --> q)] ->
       list_contains (RT:=ideal)
         (p --> (if __eq__ (RT:=ideal) x p then p else x)) NL = true).
Proof.
  apply (deduction_without_modus_ponens (RT:=ideal)
           (snd (axiom_1 small_proof q r small_store)) small_proof
           [p; p --> q] [p; p --> q; q --> (r --> q)]
           ["(premise)"; "(premise)"; "(A1)"]).
  - repeat split.
  - reflexivity.
  - reflexivity.
  - intros k line app Hl Ha.
    destruct k as [|[|[|k]]]; simpl in Hl, Ha; try discriminate Hl;
      injection Hl as <-; injection Ha as <-;
      [left | left | right]; reflexivity.
Defined.

(** ** The premise set of the new proof *)

Section DistinctFacts.
Context {RT : PyRuntime}.

Lemma distinct_perm s s' : Permutation s s' -> distinct s -> distinct s'.
Proof.
  intros Hp.
  induction Hp as [| x s s' Hp IH | x y s | s s' s'' _ IH1 _ IH2]; cbn [distinct].
  - auto.
  - intros [Hx Hs]. split; [now rewrite <- (set_contains_perm x _ _ Hp) | auto].
  - rewrite !set_contains_cons. intros [Hy [Hx Hs]].
    apply orb_false_iff in Hy as [Hxy Hy].
    repeat split; auto. apply orb_false_iff. split; [|exact Hx].
    now rewrite eq_formula_sym.
  - auto.
Qed.

Lemma set_contains_filter x (f : formula -> bool) s :
  set_contains x s = false -> set_contains x (List.filter f s) = false.
Proof.
  induction s as [|e s IH]; [reflexivity|].
  rewrite set_contains_cons. intros H. apply orb_false_iff in H as [He Hs].
  cbn [List.filter]. destruct (f e); [|auto].
  rewrite set_contains_cons, He. now apply IH.
Qed.

Lemma distinct_filter (f : formula -> bool) s :
  distinct s -> distinct (List.filter f s).
Proof.
  induction s as [|e s IH]; [auto|]. intros [He Hs]. cbn [List.filter].
  destruct (f e); [|auto]. split; [now apply set_contains_filter | auto].
Qed.

Lemma filter_absent premise s :
  set_contains premise s = false ->
  List.filter (fun e => negb (__eq__ premise e)) s = s.
Proof.
  induction s as [|e s IH]; [reflexivity|].
  rewrite set_contains_cons. intros H. apply orb_false_iff in H as [He Hs].
  cbn [List.filter]. rewrite eq_formula_sym, He. cbn [negb]. now rewrite IH.
Qed.

Lemma filter_one_less premise s :
  distinct s -> set_contains premise s = true ->
  length (List.filter (fun e => negb (__eq__ premise e)) s) + 1 = length s.
Proof.
  induction s as [|e s IH]; [discriminate|].
  intros [He Hs]. rewrite set_contains_cons. cbn [List.filter].
  rewrite (eq_formula_sym premise e).
  destruct (__eq__ e premise) eqn:E; cbn [negb orb]; intros Hp.
  - rewrite filter_absent; [simpl; lia|].
    now rewrite <- (set_contains_eq e premise s E).
  - simpl. rewrite <- (IH Hs Hp). lia.
Qed.

Lemma set_difference_singleton P premise :
  Permutation (set_difference P (set_display [premise]))
    (List.filter (fun e => negb (__eq__ premise e)) P).
Proof.
  unfold set_difference. rewrite set_order_perm.
  assert (E : forall e, negb (set_contains e (set_display [premise]))
                        = negb (__eq__ premise e)).
  { intros e. unfold set_display.
    rewrite (set_contains_perm _ _ _ (set_order_perm _)). simpl.
    now rewrite orb_false_r. }
  induction P as [|x P IH]; [reflexivity|].
  cbn [List.filter]. rewrite E. destruct (negb (__eq__ premise x)); [now constructor | exact IH].
Qed.
End DistinctFacts.

(** X10: the premise set of the proof the transformer returns is a new
    set whose members are exactly the members of the input's premise set
    that are not equal to [premise]; [premise] is not in it; and when the
    input set holds no two equal elements, it has one element less and holds
    no two equal elements either. *)
Theorem deduction_premises {RT : PyRuntime} h proof P L A premise new_proof h' :
  holds h proof P L A ->
  use_deduction_theorem proof premise h = (Return new_proof, h') ->
  exists Pn,
    h' !! premises new_proof = Some (PySet Pn) /\
    premises new_proof <> premises proof /\
    (forall x, set_contains x Pn = set_contains x P && negb (__eq__ premise x)) /\
    set_contains premise Pn = false /\
    (distinct P -> length Pn + 1 = length P /\ distinct Pn).
Proof.
  intros H E. destruct (set_contains premise P) eqn:Hp.
  - destruct (use_deduction_theorem_grows _ _ _ _ _ _ _ _ H Hp E)
      as ((_ & _ & Gholds) & Hr).
    rewrite (Hr _ eq_refl).
    destruct (Gholds _ _ _ (new_store_holds h P premise)) as (Lx & Ax & _ & Hn & _).
    exists (set_difference P (set_display [premise])).
    assert (Hmem : forall x,
               set_contains x (set_difference P (set_display [premise]))
               = set_contains x P && negb (__eq__ premise x)).
    { intros x. rewrite set_difference_contains. f_equal. f_equal.
      unfold set_display. rewrite (set_contains_perm _ _ _ (set_order_perm _)).
      simpl. now rewrite orb_false_r. }
    split; [exact Hn | split; [|split; [exact Hmem | split]]].
    + destruct H as (H1 & _). apply lookup_lt_Some in H1. simpl. lia.
    + now rewrite Hmem, eq_formula_refl, andb_false_r.
    + intros Hd. pose proof (set_difference_singleton P premise) as Hperm. split.
      * rewrite (Permutation_length Hperm). now apply filter_one_less.
      * apply (distinct_perm _ _ (Permutation_sym Hperm)). now apply distinct_filter.
  - destruct H as (H1 & _).
    rewrite (use_deduction_theorem_missing h proof P premise H1 Hp) in E.
    discriminate E.
Qed.

Lemma deduction_premises_witness :
  exists Pn,
    snd (use_deduction_theorem (RT:=ideal) small_proof (p --> (q --> false_)) script_store)
      !! premises (new_proof_of script_store) = Some (PySet Pn) /\
    premises (new_proof_of script_store) <> premises small_proof /\
    (forall x, set_contains (RT:=ideal) x Pn
               = set_contains (RT:=ideal) x [p; q; p --> (q --> false_)]
                 && negb (__eq__ (RT:=ideal) (p --> (q --> false_)) x)) /\
    set_contains (RT:=ideal) (p --> (q --> false_)) Pn = false /\
    (distinct (RT:=ideal) [p; q; p --> (q --> false_)] ->
     length Pn + 1 = length [p; q; p --> (q --> false_)] /\ distinct (RT:=ideal) Pn).
Proof.
  apply (deduction_premises (RT:=ideal) script_store small_proof
           [p; q; p --> (q --> false_)] script_lines script_applications).
  - repeat split.
  - reflexivity.
Defined.

(** ** The size of the new proof *)

Section SizeFacts.
Context {RT : PyRuntime}.

Lemma appends_weaken {X : Type} lo hi lo' hi' pf (m : M X) :
  lo' <= lo -> hi <= hi' -> appends_between lo hi pf m -> appends_between lo' hi' pf m.
Proof.
  intros Hlo Hhi Hm h r h' P L A H E.
  destruct (Hm _ _ _ _ _ _ H E) as (Lx & Ax & H' & Hlen & Hle & Hge).
  exists Lx, Ax. split; [exact H' | split; [exact Hlen | split; [lia|]]].
  intros a Ha. specialize (Hge a Ha). lia.
Qed.

Lemma appends_none {X : Type} h pf P L A lo (r : outcome X) :
  holds h pf P L A -> (forall a, r = Return a -> lo = 0) ->
  exists Lx Ax,
    holds h pf P (L ++ Lx) (A ++ Ax) /\ length Lx = length Ax /\
    length Lx <= 0 /\ (forall a, r = Return a -> lo <= length Lx).
Proof.
  intros H Hr. exists [], []. rewrite !app_nil_r.
  split; [exact H | simpl; split; [reflexivity | split; [lia|]]].
  intros a Ha. rewrite (Hr a Ha). lia.
Qed.

Lemma appends_ret {X : Type} pf (a : X) : appends_between 0 0 pf (ret a).
Proof. intros h r h' P L A H E. injection E as <- <-. now apply appends_none. Qed.

Lemma appends_raise {X : Type} lo pf e : appends_between lo 0 pf (raise (A:=X) e).
Proof.
  intros h r h' P L A H E. injection E as <- <-. apply appends_none; [exact H|].
  discriminate.
Qed.

Lemma appends_get_set pf l : appends_between 0 0 pf (get_set l).
Proof.
  intros h r h' P L A H E. apply get_set_inv in E as [-> _]. now apply appends_none.
Qed.

Lemma appends_get_list pf l : appends_between 0 0 pf (get_list l).
Proof.
  intros h r h' P L A H E. apply get_list_inv in E as [-> _]. now apply appends_none.
Qed.

Lemma appends_bind {X Y : Type} lo1 hi1 lo2 hi2 pf (m : M X) (k : X -> M Y) :
  appends_between lo1 hi1 pf m -> (forall a, appends_between lo2 hi2 pf (k a)) ->
  appends_between (lo1 + lo2) (hi1 + hi2) pf (bind m k).
Proof.
  intros Hm Hk h r h' P L A H E.
  apply bind_inv in E as [(a & h1 & E1 & E2) | (e & E1 & ->)].
  - destruct (Hm _ _ _ _ _ _ H E1) as (Lx & Ax & H1 & Hlen1 & Hle1 & Hge1).
    destruct (Hk a _ _ _ _ _ _ H1 E2) as (Ly & Ay & H2 & Hlen2 & Hle2 & Hge2).
    exists (Lx ++ Ly), (Ax ++ Ay). rewrite !app_assoc, !length_app.
    split; [exact H2 | split; [lia | split; [lia|]]].
    intros b Hb. specialize (Hge1 a eq_refl). specialize (Hge2 b Hb). lia.
  - destruct (Hm _ _ _ _ _ _ H E1) as (Lx & Ax & H1 & Hlen1 & Hle1 & _).
    exists Lx, Ax. split; [exact H1 | split; [exact Hlen1 | split; [lia | discriminate]]].
Qed.

Lemma appends_add_row h pf P L A x s :
  holds h pf P L A ->
  exists Lx Ax,
    holds (add_row pf L A x s h) pf P (L ++ Lx) (A ++ Ax) /\
    length Lx = length Ax /\ length Lx <= 1 /\
    (forall a : unit, Return tt = Return a -> 1 <= length Lx).
Proof.
  intros H. exists [x], [s].
  split; [now apply add_row_holds | simpl; repeat split; intros; lia].
Qed.

Lemma appends_axiom_1 pf a b : appends_between 1 1 pf (axiom_1 pf a b).
Proof.
  intros h r h' P L A H E. rewrite (axiom_1_run _ _ _ _ _ _ _ H) in E.
  injection E as <- <-. now apply appends_add_row.
Qed.

Lemma appends_axiom_2 pf a b c : appends_between 1 1 pf (axiom_2 pf a b c).
Proof.
  intros h r h' P L A H E. rewrite (axiom_2_run _ _ _ _ _ _ _ _ H) in E.
  injection E as <- <-. now apply appends_add_row.
Qed.

Lemma appends_modus_ponens pf a b : appends_between 1 1 pf (modus_ponens pf a b).
Proof.
  intros h r h' P L A H E.
  destruct (list_contains a L) eqn:E1; [destruct (list_contains (a --> b) L) eqn:E2 |].
  - destruct (modus_ponens_ok _ _ _ _ _ _ _ H E1 E2) as (i & j & _ & _ & Run).
    rewrite Run in E. injection E as <- <-. now apply appends_add_row.
  - rewrite (modus_ponens_no_implication _ _ _ _ _ _ _ H E1 E2) in E.
    injection E as <- <-.
    destruct (appends_none h pf P L A 1 (Raise (A:=unit) (UnprovenImplication (a --> b))) H)
      as (Lx & Ax & H' & Hl & Hle & Hge); [discriminate|].
    exists Lx, Ax. split; [exact H' | split; [exact Hl | split; [lia | exact Hge]]].
  - rewrite (modus_ponens_no_antecedent _ _ _ _ _ _ _ H E1) in E.
    injection E as <- <-.
    destruct (appends_none h pf P L A 1 (Raise (A:=unit) (UnprovenAntecedent a)) H)
      as (Lx & Ax & H' & Hl & Hle & Hge); [discriminate|].
    exists Lx, Ax. split; [exact H' | split; [exact Hl | split; [lia | exact Hge]]].
Qed.

Lemma appends_append_row {X : Type} lo hi pf x s (k : M X) :
  appends_between lo hi pf k ->
  appends_between (1 + lo) (1 + hi) pf
    (list_append (lines pf) x ;;; strs_append (applications pf) s ;;; k).
Proof.
  intros Hk h r h' P L A H E.
  pose proof (append_row_run _ _ _ _ _ x s H) as Run.
  assert (E' : k (add_row pf L A x s h) = (r, h')).
  { revert E Run. unfold bind.
    destruct (list_append (lines pf) x h) as [[[] | e] h1]; [|discriminate].
    destruct (strs_append (applications pf) s h1) as [[[] | e] h2]; [|discriminate].
    now intros E [= ->]. }
  destruct (Hk _ _ _ _ _ _ (add_row_holds _ _ _ _ _ x s H) E')
    as (Ly & Ay & H2 & Hlen2 & Hle2 & Hge2).
  exists (x :: Ly), (s :: Ay). rewrite <- !app_assoc in H2.
  split; [exact H2 | simpl; split; [lia | split; [lia|]]].
  intros b Hb. specialize (Hge2 b Hb). lia.
Qed.
End SizeFacts.

Ltac appends_steps :=
  repeat first
    [ apply appends_modus_ponens
    | apply (appends_bind 1 1); [apply appends_axiom_1 | intros _]
    | apply (appends_bind 1 1); [apply appends_axiom_2 | intros _]
    | apply (appends_bind 1 1); [apply appends_modus_ponens | intros _] ].

Section SizeTransformer.
Context {RT : PyRuntime}.

(** Each input line costs the new proof between two and five rows. *)
Lemma appends_deduce_line proof new_proof premise entry :
  appends_between 2 5 new_proof (deduce_line proof new_proof premise entry).
Proof.
  destruct entry as [line application]. unfold deduce_line.
  destruct (__eq__ line premise).
  { apply (appends_weaken 5 5); [lia | lia |]. appends_steps. }
  apply (appends_bind 0 0 2 5); [apply appends_get_set | intros s].
  destruct (set_contains line s).
  { apply (appends_weaken 2 2); [lia | lia |]. appends_steps. }
  destruct (String.prefix "(A" application).
  { apply (appends_weaken 3 3); [lia | lia |].
    apply (appends_append_row 2 2). appends_steps. }
  apply (appends_bind 0 0 2 5); [apply appends_get_list | intros ls].
  destruct (find_pair ls line) as [[tj tk] |].
  - apply (appends_weaken 3 3); [lia | lia |]. appends_steps.
  - apply (appends_weaken 2 0); [lia | lia |]. apply appends_raise.
Qed.

Lemma appends_for_each {X : Type} lo hi pf (xs : list X) (body : X -> M unit) :
  (forall x, appends_between lo hi pf (body x)) ->
  appends_between (lo * length xs) (hi * length xs) pf (for_each xs body).
Proof.
  intros Hb. induction xs as [|x xs IH]; simpl.
  - rewrite !Nat.mul_0_r. apply appends_ret.
  - apply (appends_weaken (lo + lo * length xs) (hi + hi * length xs)); [lia | lia |].
    apply appends_bind; [apply Hb | intros _; exact IH].
Qed.
End SizeTransformer.

(** X11: the proof the transformer returns starts with its premises, then
    holds between two and five rows for each line of the input: with [n]
    input lines and [m] remaining premises, between [m + 2n] and [m + 5n]
    rows. *)
Theorem deduction_size {RT : PyRuntime} h proof P L A premise new_proof h' :
  holds h proof P L A -> length L = length A ->
  use_deduction_theorem proof premise h = (Return new_proof, h') ->
  exists Pn Lx Ax,
    holds h' new_proof Pn (Pn ++ Lx) (map (fun _ => "(premise)") Pn ++ Ax) /\
    length Lx = length Ax /\
    2 * length L <= length Lx <= 5 * length L.
Proof.
  intros H Hlen E. destruct (set_contains premise P) eqn:Hp.
  - rewrite (use_deduction_theorem_run _ _ _ _ _ _ H Hp) in E.
    apply bind_inv in E as [([] & h1 & E1 & E2) | (e & _ & [=])].
    injection E2 as <- <-.
    destruct (appends_for_each 2 5 (new_proof_of h) (combine L A)
                (deduce_line proof (new_proof_of h) premise)
                (appends_deduce_line _ _ _) _ _ _ _ _ _
                (new_store_holds h P premise) E1)
      as (Lx & Ax & Hn & Hl & Hle & Hge).
    specialize (Hge tt eq_refl).
    rewrite length_combine, <- Hlen, Nat.min_id in Hle, Hge.
    exists (set_difference P (set_display [premise])), Lx, Ax.
    split; [exact Hn | split; [exact Hl | lia]].
  - destruct H as (H1 & _).
    rewrite (use_deduction_theorem_missing h proof P premise H1 Hp) in E.
    discriminate E.
Qed.

Lemma deduction_size_witness :
  exists Pn Lx Ax,
    holds (snd (use_deduction_theorem (RT:=ideal) small_proof (p --> (q --> false_))
                  script_store))
      (new_proof_of script_store) Pn (Pn ++ Lx)
      (map (fun _ => "(premise)") Pn ++ Ax) /\
    length Lx = length Ax /\
    2 * length script_lines <= length Lx <= 5 * length script_lines.
Proof.
  apply (deduction_size (RT:=ideal) script_store small_proof
           [p; q; p --> (q --> false_)] script_lines script_applications
           (p --> (q --> false_))).
  - repeat split.
  - reflexivity.
  - reflexivity.
Defined.

(** ** [summary] *)

Lemma io_bind_Return {A B : Type} (m : IO A) (k : A -> IO B) w a w' :
  m w = (Return a, w') -> io_bind m k w = k a w'.
Proof. intros E. unfold io_bind. now rewrite E. Qed.

Lemma lift_Return {A : Type} (m : M A) h out a :
  m h = (Return a, h) -> lift m (h, out) = (Return a, (h, out)).
Proof. intros E. unfold lift. simpl. now rewrite E. Qed.

Lemma io_for_each_print {A : Type} (xs : list A) (body : A -> IO unit)
    (f : A -> string) h out :
  (forall x w, body x w = print (f x) w) ->
  io_for_each xs body (h, out) = (Return tt, (h, out ++ map f xs)).
Proof.
  intros Hb. revert out. induction xs as [|x xs IH]; intros out; simpl.
  - now rewrite app_nil_r.
  - unfold io_bind. rewrite Hb. unfold print. simpl. rewrite IH.
    now rewrite <- app_assoc.
Qed.

(** X12: [summary] leaves the store as it is.  On a proof object with [n]
    lines and as many applications, [n >= 1], it prints one row per line and
    then the line that names the conclusion, the premise set and [n].  On a
    proof without lines it prints nothing and raises [IndexError]. *)
Theorem summary_prints h pf P L A out :
  holds h pf P L A -> length L = length A ->
  (L = [] -> summary pf (h, out) = (Raise IndexError, (h, out))) /\
  (forall L0 c, L = L0 ++ [c] ->
     exists rows,
       summary pf (h, out)
       = (Return tt, (h, out ++ rows ++ [summary_last c P (length L)])) /\
       length rows = length L).
Proof.
  intros H Hlen. pose proof H as (H1 & H2 & H3).
  assert (Run : summary pf (h, out)
          = (c <~ lift (conclude pf) ;;
             s <~ lift (get_set (premises pf)) ;;
             ls' <~ lift (get_list (lines pf)) ;;
             print (summary_last c s (length ls')))
            (h, out ++ map (fun '(i, (line, application)) =>
                              summary_row i line application)
                         (enumerate (combine L A)))).
  { unfold summary.
    rewrite (io_bind_Return _ _ _ _ _ (lift_Return _ _ _ _ (get_list_run _ _ _ H2))).
    rewrite (io_bind_Return _ _ _ _ _ (lift_Return _ _ _ _ (get_strs_run _ _ _ H3))).
    unfold io_bind at 1.
    rewrite (io_for_each_print _ _
               (fun '(i, (line, application)) => summary_row i line application));
      [reflexivity|].
    now intros [i [line application]] w. }
  split.
  - intros ->. rewrite Run. destruct A; [|discriminate Hlen]. simpl.
    unfold io_bind, lift. simpl. rewrite (conclude_run _ _ _ _ _ H). simpl.
    now rewrite app_nil_r.
  - intros L0 c ->. rewrite Run.
    set (rows := map (fun '(i, (line, application)) => summary_row i line application)
                   (enumerate (combine (L0 ++ [c]) A))).
    exists rows. split.
    + assert (Ec : lift (conclude pf) (h, out ++ rows) = (Return c, (h, out ++ rows))).
      { apply lift_Return. rewrite (conclude_run _ _ _ _ _ H). now rewrite last_snoc. }
      rewrite (io_bind_Return _ _ _ _ _ Ec).
      rewrite (io_bind_Return _ _ _ _ _ (lift_Return _ _ _ _ (get_set_run _ _ _ H1))).
      rewrite (io_bind_Return _ _ _ _ _ (lift_Return _ _ _ _ (get_list_run _ _ _ H2))).
      unfold print. simpl. now rewrite <- app_assoc.
    + unfold rows, enumerate.
      rewrite length_map, length_combine, length_seq, length_combine. lia.
Qed.

Lemma summary_prints_witness :
  summary small_proof ([PySet []; PyList []; PyStrList []], [])
  = (Raise IndexError, ([PySet []; PyList []; PyStrList []], [])) /\
  exists rows,
    summary small_proof (script_store, [])
    = (Return tt,
       (script_store,
        [] ++ rows ++
        ["Proved ⊥ from premises {p, q, (p => (q => ⊥))} in 5 lines"])) /\
    length rows = 5.
Proof.
  split.
  - assert (H : holds [PySet []; PyList []; PyStrList []] small_proof [] [] [])
      by (repeat split).
    now apply (proj1 (summary_prints _ _ _ _ _ [] H eq_refl)).
  - assert (H : holds script_store small_proof [p; q; p --> (q --> false_)]
                  script_lines script_applications) by (repeat split).
    apply (proj2 (summary_prints _ _ _ _ _ [] H eq_refl)
             [p; q; p --> (q --> false_); q --> false_] false_).
    reflexivity.
Defined.

Example summary_rows :
  snd (snd (summary small_proof (script_store, [])))
  = [" 1. (premise)    p                                                           ";
     " 2. (premise)    q                                                           ";
     " 3. (premise)    (p => (q => ⊥))                                             ";
     " 4. (MP 1, 3)    (q => ⊥)                                                    ";
     " 5. (MP 2, 4)    ⊥                                                           ";
     "Proved ⊥ from premises {p, q, (p => (q => ⊥))} in 5 lines"].
Proof. vm_compute. reflexivity. Qed.

(** ** The errors of the transformer *)

Section ErrorFacts.
Context {RT : PyRuntime}.

Lemma deduce_line_raises (Q : exn -> Prop) h proof new_proof P L premise entry r h' :
  (forall x, Q (UnprovenAntecedent x)) -> (forall x, Q (UnprovenImplication x)) ->
  (forall x, Q (MalformedInputProof x)) ->
  (exists Pn Ln An, holds h new_proof Pn Ln An) ->
  h !! premises proof = Some (PySet P) -> h !! lines proof = Some (PyList L) ->
  deduce_line proof new_proof premise entry h = (r, h') ->
  grows new_proof h h' /\ forall e, r = Raise e -> Q e.
Proof.
  intros QA QM QF W H1 H2 E. destruct entry as [line application].
  unfold deduce_line in E.
  destruct (__eq__ line premise).
  { revert E. match goal with |- ?m h = _ -> _ =>
      assert (X : extends Q new_proof m) by extends_steps end.
    now apply X. }
  rewrite (bind_Return _ _ _ _ _ (get_set_run _ _ _ H1)) in E.
  destruct (set_contains line P).
  { revert E. match goal with |- ?m h = _ -> _ =>
      assert (X : extends Q new_proof m) by extends_steps end.
    now apply X. }
  destruct (String.prefix "(A" application).
  { revert E. match goal with |- ?m h = _ -> _ =>
      assert (X : extends Q new_proof m)
        by (apply extends_append_row; extends_steps) end.
    now apply X. }
  rewrite (bind_Return _ _ _ _ _ (get_list_run _ _ _ H2)) in E.
  destruct (find_pair L line) as [[tj tk] |].
  { revert E. match goal with |- ?m h = _ -> _ =>
      assert (X : extends Q new_proof m) by extends_steps end.
    now apply X. }
  injection E as <- <-. split; [apply grows_refl | intros e [= <-]; apply QF].
Qed.

Lemma loop_raises (Q : exn -> Prop) proof new_proof P L premise entries :
  (forall x, Q (UnprovenAntecedent x)) -> (forall x, Q (UnprovenImplication x)) ->
  (forall x, Q (MalformedInputProof x)) ->
  premises proof <> lines new_proof -> premises proof <> applications new_proof ->
  lines proof <> lines new_proof -> lines proof <> applications new_proof ->
  forall h r h',
    (exists Pn Ln An, holds h new_proof Pn Ln An) ->
    h !! premises proof = Some (PySet P) -> h !! lines proof = Some (PyList L) ->
    for_each entries (deduce_line proof new_proof premise) h = (r, h') ->
    forall e, r = Raise e -> Q e.
Proof.
  intros QA QM QF D1 D2 D3 D4.
  induction entries as [|entry entries IH]; intros h r h' W H1 H2 E.
  - injection E as <- <-. discriminate.
  - simpl in E. apply bind_inv in E as [([] & h1 & E1 & E2) | (e & E1 & ->)].
    + destruct (deduce_line_raises Q _ _ _ _ _ _ _ _ _ QA QM QF W H1 H2 E1) as [G _].
      pose proof (grows_holds _ _ _ G W) as W1. destruct G as (_ & F & _).
      apply (IH h1 r h' W1); auto; now rewrite F.
    + destruct (deduce_line_raises Q _ _ _ _ _ _ _ _ _ QA QM QF W H1 H2 E1) as [_ R].
      intros e' [= <-]. now apply R.
Qed.
End ErrorFacts.

(** X13: on a proof object, every exception of the transformer is a
    [ValueError] with one of the four messages of the code: the missing
    premise, exactly when [premise] is not in the premise set; otherwise an
    unproven antecedent or implication from [modus_ponens] on the new proof,
    or the failed scan.  It raises no [IndexError] and never reads an object
    that is missing from the store. *)
Theorem deduction_errors {RT : PyRuntime} h proof P L A premise e h' :
  holds h proof P L A ->
  use_deduction_theorem proof premise h = (Raise e, h') ->
  documented_error e /\
  (set_contains premise P = false <-> e = MissingPremise premise) /\
  e <> IndexError /\ e <> InvalidObject.
Proof.
  intros H E.
  assert (Hdoc : forall e0, documented_error e0 ->
                   e0 <> IndexError /\ e0 <> InvalidObject).
  { intros e0 [[x ->] | [[x ->] | [[x ->] | [x ->]]]]; split; discriminate. }
  destruct (set_contains premise P) eqn:Hp.
  - assert (Hr : documented_error e /\ e <> MissingPremise premise).
    { rewrite (use_deduction_theorem_run _ _ _ _ _ _ H Hp) in E.
      destruct H as (H1 & H2 & H3).
      apply lookup_lt_Some in H1 as Hlt1. apply lookup_lt_Some in H2 as Hlt2.
      apply bind_inv in E as [([] & h1 & _ & [=]) | (e0 & E1 & [= <-])].
      refine (loop_raises
                (fun e0 => documented_error e0 /\ e0 <> MissingPremise premise)
                proof (new_proof_of h) P L premise (combine L A)
                _ _ _ _ _ _ _ _ _ _ _ _ _ E1 _ eq_refl);
        simpl; try lia.
      - intros x. split; [right; left; eauto | intros [=]].
      - intros x. split; [right; right; left; eauto | intros [=]].
      - intros x. split; [right; right; right; eauto | intros [=]].
      - do 3 eexists. apply new_store_holds.
      - now rewrite new_store_old.
      - now rewrite new_store_old. }
    destruct Hr as [Hd Hne]. split; [exact Hd | split; [|now apply Hdoc]].
    split; [discriminate | intros ->; now elim Hne].
  - destruct H as (H1 & _).
    rewrite (use_deduction_theorem_missing h proof P premise H1 Hp) in E.
    injection E as <- <-.
    assert (Hd : documented_error (MissingPremise premise)) by (left; eauto).
    split; [exact Hd | split; [now split | now apply Hdoc]].
Qed.

Lemma deduction_errors_witness :
  documented_error (ValueError "Unable to find the antecedent of q") /\
  (set_contains (RT:=ideal) p [p] = false
   <-> ValueError "Unable to find the antecedent of q" = MissingPremise p) /\
  ValueError "Unable to find the antecedent of q" <> IndexError /\
  ValueError "Unable to find the antecedent of q" <> InvalidObject.
Proof.
  assert (H : holds forged_store small_proof [p] [p; q] ["(premise)"; "(MP 1, 1)"])
    by (repeat split).
  apply (deduction_errors (RT:=ideal) forged_store small_proof [p] [p; q]
           ["(premise)"; "(MP 1, 1)"] p _
           (snd (use_deduction_theorem (RT:=ideal) small_proof p forged_store)) H).
  reflexivity.
Defined.

(** ** The Deduction Theorem without collisions *)

Section NoCollision.
Context {RT : PyRuntime}.

Lemma eq_names (U : formula -> Prop) a b :
  collision_free U -> U a -> U b -> __eq__ a b = true -> name a = name b.
Proof.
  intros HU Ha Hb E. apply (HU a b Ha Hb). now apply Z.eqb_eq in E.
Qed.

Lemma scan_in_order_orderly (U : formula -> Prop) P L A premise :
  collision_free U ->
  (forall x, In x L -> U x) -> U premise ->
  (forall x y, In x L -> In y L -> U (x --> y)) ->
  scan_in_order P L A premise -> orderly P L A premise.
Proof.
  intros HU HL Hp Himp Hs k line app Hk Ha.
  destruct (Hs k line app Hk Ha) as [E | [E | [E | (tj & tk & F & Hj & Hk')]]];
    [now left | right; now left | right; right; now left |].
  right; right; right. exists tj, tk. cbn [fst snd].
  destruct (find_pair_inv _ _ _ _ F) as (Ij & Ik & E).
  assert (Il : In line L) by (apply list_elem_of_In; eapply list_elem_of_lookup_2; eauto).
  split; [exact F |]. split; [exact Hj |]. split; [exact Hk' |].
  split; [apply (eq_names U); auto |].
  split; intros E'; apply (eq_names U); auto.
Qed.
End NoCollision.

(** X14: the Deduction Theorem for a hash without collisions.  When the hash
    separates the lines, the premise and the implications between lines, and
    every line that reaches case 4 has its scan pair among the lines before
    it, the transformer returns a proof from the premises other than
    [premise] that has, for every line [x] of the input, a line equal to
    [(premise > x)] ([(premise > premise)] when [x == premise]). *)
Theorem deduction_theorem_no_collision {RT : PyRuntime} (U : formula -> Prop)
    h proof P L A premise :
  collision_free U ->
  (forall x, In x L -> U x) -> U premise ->
  (forall x y, In x L -> In y L -> U (x --> y)) ->
  holds h proof P L A -> length L = length A ->
  set_contains premise P = true -> scan_in_order P L A premise ->
  exists new_proof h' NL NA,
    use_deduction_theorem proof premise h = (Return new_proof, h') /\
    holds h' new_proof (set_difference P (set_display [premise])) NL NA /\
    (forall x, In x L ->
       list_contains (premise --> (if __eq__ x premise then premise else x)) NL = true).
Proof.
  intros HU HL HUp Himp H Hlen Hp Hs.
  pose proof (scan_in_order_orderly U P L A premise HU HL HUp Himp Hs) as Hord.
  destruct (use_deduction_theorem_returns _ _ _ _ _ _ H Hlen Hp Hord)
    as (h' & NL & NA & E & Hn & Hall).
  exists (new_proof_of h), h', NL, NA. auto.
Qed.

Lemma deduction_theorem_no_collision_witness :
  exists new_proof h' NL NA,
    use_deduction_theorem (RT:=ideal) small_proof (p --> (q --> false_)) script_store
    = (Return new_proof, h') /\
    holds h' new_proof
      (set_difference (RT:=ideal) [p; q; p --> (q --> false_)]
         (set_display (RT:=ideal) [p --> (q --> false_)])) NL NA /\
    (forall x, In x script_lines ->
       list_contains (RT:=ideal)
         ((p --> (q --> false_)) -->
          (if __eq__ (RT:=ideal) x (p --> (q --> false_))
           then p --> (q --> false_) else x)) NL = true).
Proof.
  apply (deduction_theorem_no_collision (RT:=ideal) (fun _ => True)
           script_store small_proof
           [p; q; p --> (q --> false_)] script_lines script_applications).
  - intros a b _ _. exact (code_inj (name a) (name b)).
  - intros x _. exact I.
  - exact I.
  - intros x y _ _. exact I.
  - repeat split.
  - reflexivity.
  - reflexivity.
  - intros k line app Hl Ha.
    destruct k as [|[|[|[|[|k]]]]]; simpl in Hl, Ha; try discriminate Hl;
      injection Hl as <-; injection Ha as <-.
    + right; left; reflexivity.
    + right; left; reflexivity.
    + left; reflexivity.
    + right; right; right. exists p, (p --> (q --> false_)).
      repeat split; simpl; tauto.
    + right; right; right. exists q, (q --> false_).
      repeat split; simpl; tauto.
Defined.
